(** * ExtensionsService: a shallow embedding of the extension lifecycle manager

    Source: chrome/browser/extensions/extensions_service.cc.

    The registries of the service ([extensions_], [disabled_extensions_],
    [pending_extensions_], [unloaded_extension_paths_]) are modelled as
    Rocq lists and stdpp maps; the preference store (ExtensionPrefs, not in
    the source) is a small record of maps modelled from the spec.  Every
    observable side effect (notifications, URL-override registration,
    diagnostics, tasks posted to the FILE thread, installers started) is
    appended to an effect log.  A [CHECK] failure or a null dereference is
    [None]; [NOTREACHED()] is logged as a diagnostic and execution goes on,
    as in a release build.

    Pointer identity: the lists hold [Extension*]; [std::find] on a list
    compares pointers.  Here records are values and [std::find] compares
    values; the two agree on every state where identifiers are unique, which
    is the invariant [wf] below. *)

From Stdlib Require Import Ascii String.
From stdpp Require Import base gmap strings list.

Open Scope string_scope.

(** ** Data model *)

(** [Extension::Location]. *)
Inductive Location :=
  | INVALID | INTERNAL | EXTERNAL_PREF | EXTERNAL_REGISTRY | LOAD | COMPONENT.

#[global] Instance Location_eq_dec : EqDecision Location.
Proof. solve_decision. Defined.

(** Modelled from the spec: [Extension::IsExternalLocation] (extension.h is
    not in the source): the two externally registered locations, via
    preferences and via the platform registry. *)
Definition IsExternalLocation (l : Location) : bool :=
  match l with
  | EXTERNAL_PREF | EXTERNAL_REGISTRY => true
  | _ => false
  end.

(** [Extension::State]: the enable state stored in the preferences. *)
Inductive State := DISABLED | ENABLED | KILLBIT.

#[global] Instance State_eq_dec : EqDecision State.
Proof. solve_decision. Defined.

(** [StringToLowerASCII]. *)
Definition ToLowerASCII (c : ascii) : ascii :=
  let n := nat_of_ascii c in
  if (65 <=? n)%nat && (n <=? 90)%nat then ascii_of_nat (n + 32) else c.

Fixpoint StringToLowerASCII (s : string) : string :=
  match s with
  | EmptyString => EmptyString
  | String c r => String (ToLowerASCII c) (StringToLowerASCII r)
  end.

(** Notification types sent by the service. *)
Inductive NotificationType :=
  | EXTENSION_LOADED | EXTENSION_UNLOADED | EXTENSION_UNLOADED_DISABLED
  | EXTENSION_UPDATE_DISABLED | EXTENSION_INSTALLED | THEME_INSTALLED
  | EXTENSION_INSTALL_ERROR | EXTENSION_OVERINSTALL_ERROR.

#[global] Instance NotificationType_eq_dec : EqDecision NotificationType.
Proof. solve_decision. Defined.

(** Tasks posted to the FILE thread. *)
Inductive FileTask :=
  | DeleteFileHelper (path : string) (recursive : bool)
  | LoadSingleExtension (path : string)
  | UninstallExtensionFiles (id : string)
  | CheckExternalUninstall (id : string) (location : Location).

(** The configuration a [CrxInstaller] is started with. *)
Record CrxInstallerConfig := {
  crx_path : string;
  crx_expected_id : option string;
  crx_allow_privilege_increase : bool;
  crx_silent : bool;                    (* no ExtensionInstallUI client *)
  crx_delete_source : bool;
  crx_install_source : option Location;
  crx_original_url : option string;
  crx_force_web_origin_to_download_url : bool
}.

(** Observable effects, in the order the code performs them. *)
Inductive Effect :=
  | Notify (ty : NotificationType) (details : string)
  | RegisterChromeURLOverrides (id : string)
  | UnregisterChromeURLOverrides (id : string)
  | ReportError (message : string) (be_noisy : bool)
  | LogWarning (message : string)
  | NotReached (message : string)
  | PostFileTask (t : FileTask)
  | InstallCrx (cfg : CrxInstallerConfig)
  | ClearExtensionData (id : string).

Section ExtensionsService.

(** The version type and [Version::CompareTo] (base/version.cc), the
    permission comparison [Extension::IsPrivilegeIncrease], the validity
    check [Extension::IdIsValid], the manifest type and the parsers are
    collaborators outside the source: every result below holds for any of
    them. *)
Context {version : Type} `{!EqDecision version}.
Variable CompareTo : version -> version -> comparison.
Variable GetVersionFromString : string -> option version.
Variable Manifest : Type.

(** [Extension]: the fields of the record the service reads. *)
Record Extension := {
  ext_id : string;
  ext_version : version;
  ext_path : string;
  ext_location : Location;
  ext_is_theme : bool;
  ext_api_permissions : list string
}.

#[global] Instance Extension_eq_dec : EqDecision Extension.
Proof. solve_decision. Defined.

Definition set_location (l : Location) (e : Extension) : Extension :=
  {| ext_id := ext_id e; ext_version := ext_version e; ext_path := ext_path e;
     ext_location := l; ext_is_theme := ext_is_theme e;
     ext_api_permissions := ext_api_permissions e |}.

Variable IsPrivilegeIncrease : Extension -> Extension -> bool.
Variable IdIsValid : string -> bool.
(** [Extension::InitFromValue] on a fresh [Extension(path)]: the record or
    an error message. *)
Variable InitFromValue : string -> Manifest -> bool -> string + Extension.
Variable manifest_value : Extension -> Manifest.
(** [file_util::AbsolutePath] and [extension_file_util::LoadExtension]. *)
Variable AbsolutePath : string -> string.
Variable LoadExtensionFromDisk : string -> string + Extension.

(** [PendingExtensionInfo]. *)
Record PendingExtensionInfo := {
  update_url : string;
  pending_version : version;
  is_theme : bool;
  install_silently : bool
}.

(** [ExtensionInfo]: what the preferences hold for an installed extension. *)
Record ExtensionInfo := {
  info_id : string;
  info_path : string;
  info_location : Location;
  info_manifest : option Manifest
}.

(** Modelled from the spec: the Preference Store (ExtensionPrefs, not in the
    source) "persists/retrieves per-identifier enable state, install
    metadata, blacklist set, ... and permission-escalation flags". *)
Record ExtensionPrefs := {
  pref_state : gmap string State;
  pref_escalated : gmap string bool;
  pref_blacklist : gset string;
  pref_installed : gmap string ExtensionInfo;
  pref_uninstalled : list (string * Location * bool)
}.

(** Modelled from the spec: the stored enable state, "enabled" by default
    for an identifier with no stored state. *)
Definition GetExtensionState (p : ExtensionPrefs) (id : string) : State :=
  default ENABLED (pref_state p !! id).

(** Modelled from the spec: persist the enable state of an extension. *)
Definition SetExtensionState (p : ExtensionPrefs) (e : Extension) (st : State)
    : ExtensionPrefs :=
  {| pref_state := <[ext_id e := st]> (pref_state p);
     pref_escalated := pref_escalated p; pref_blacklist := pref_blacklist p;
     pref_installed := pref_installed p; pref_uninstalled := pref_uninstalled p |}.

(** Modelled from the spec: persist the permissions-escalated flag. *)
Definition SetDidExtensionEscalatePermissions (p : ExtensionPrefs)
    (e : Extension) (b : bool) : ExtensionPrefs :=
  {| pref_state := pref_state p;
     pref_escalated := <[ext_id e := b]> (pref_escalated p);
     pref_blacklist := pref_blacklist p;
     pref_installed := pref_installed p; pref_uninstalled := pref_uninstalled p |}.

(** Modelled from the spec: persist the blacklist set. *)
Definition UpdateBlacklist (p : ExtensionPrefs) (bl : gset string) : ExtensionPrefs :=
  {| pref_state := pref_state p; pref_escalated := pref_escalated p;
     pref_blacklist := bl;
     pref_installed := pref_installed p; pref_uninstalled := pref_uninstalled p |}.

(** Modelled from the spec: persist install metadata (path, location and
    manifest) of a newly installed extension. *)
Definition PrefsOnExtensionInstalled (p : ExtensionPrefs) (e : Extension)
    : ExtensionPrefs :=
  {| pref_state := pref_state p; pref_escalated := pref_escalated p;
     pref_blacklist := pref_blacklist p;
     pref_installed := <[ext_id e := {| info_id := ext_id e; info_path := ext_path e;
                                         info_location := ext_location e;
                                         info_manifest := Some (manifest_value e) |}]>
                         (pref_installed p);
     pref_uninstalled := pref_uninstalled p |}.

(** Modelled from the spec: persist an uninstall, with the flag telling a
    host-initiated ("external") removal from the user's own. *)
Definition PrefsOnExtensionUninstalled (p : ExtensionPrefs) (id : string)
    (loc : Location) (external_uninstall : bool) : ExtensionPrefs :=
  {| pref_state := pref_state p; pref_escalated := pref_escalated p;
     pref_blacklist := pref_blacklist p;
     pref_installed := delete id (pref_installed p);
     pref_uninstalled := pref_uninstalled p ++ [(id, loc, external_uninstall)] |}.

(** Modelled from the spec: the persisted install info of an identifier. *)
Definition GetInstalledExtensionInfo (p : ExtensionPrefs) (id : string)
    : option ExtensionInfo :=
  pref_installed p !! id.

(** Modelled from the spec: replace the persisted manifest. *)
Definition UpdateManifest (p : ExtensionPrefs) (e : Extension) : ExtensionPrefs :=
  {| pref_state := pref_state p; pref_escalated := pref_escalated p;
     pref_blacklist := pref_blacklist p;
     pref_installed := alter (fun i => {| info_id := info_id i; info_path := info_path i;
                                          info_location := info_location i;
                                          info_manifest := Some (manifest_value e) |})
                             (ext_id e) (pref_installed p);
     pref_uninstalled := pref_uninstalled p |}.

(** The service's state (the members the operations below touch). *)
Record Service := {
  extensions_ : list Extension;
  disabled_extensions_ : list Extension;
  pending_extensions_ : gmap string PendingExtensionInfo;
  unloaded_extension_paths_ : gmap string string;
  extension_prefs_ : ExtensionPrefs;
  extensions_enabled_ : bool;
  log_ : list Effect
}.

Definition set_extensions (l : list Extension) (s : Service) : Service :=
  {| extensions_ := l; disabled_extensions_ := disabled_extensions_ s;
     pending_extensions_ := pending_extensions_ s;
     unloaded_extension_paths_ := unloaded_extension_paths_ s;
     extension_prefs_ := extension_prefs_ s;
     extensions_enabled_ := extensions_enabled_ s; log_ := log_ s |}.

Definition set_disabled (l : list Extension) (s : Service) : Service :=
  {| extensions_ := extensions_ s; disabled_extensions_ := l;
     pending_extensions_ := pending_extensions_ s;
     unloaded_extension_paths_ := unloaded_extension_paths_ s;
     extension_prefs_ := extension_prefs_ s;
     extensions_enabled_ := extensions_enabled_ s; log_ := log_ s |}.

Definition set_pending (m : gmap string PendingExtensionInfo) (s : Service) : Service :=
  {| extensions_ := extensions_ s; disabled_extensions_ := disabled_extensions_ s;
     pending_extensions_ := m;
     unloaded_extension_paths_ := unloaded_extension_paths_ s;
     extension_prefs_ := extension_prefs_ s;
     extensions_enabled_ := extensions_enabled_ s; log_ := log_ s |}.

Definition set_unloaded (m : gmap string string) (s : Service) : Service :=
  {| extensions_ := extensions_ s; disabled_extensions_ := disabled_extensions_ s;
     pending_extensions_ := pending_extensions_ s;
     unloaded_extension_paths_ := m;
     extension_prefs_ := extension_prefs_ s;
     extensions_enabled_ := extensions_enabled_ s; log_ := log_ s |}.

Definition set_prefs (p : ExtensionPrefs) (s : Service) : Service :=
  {| extensions_ := extensions_ s; disabled_extensions_ := disabled_extensions_ s;
     pending_extensions_ := pending_extensions_ s;
     unloaded_extension_paths_ := unloaded_extension_paths_ s;
     extension_prefs_ := p;
     extensions_enabled_ := extensions_enabled_ s; log_ := log_ s |}.

Definition add_log (effs : list Effect) (s : Service) : Service :=
  {| extensions_ := extensions_ s; disabled_extensions_ := disabled_extensions_ s;
     pending_extensions_ := pending_extensions_ s;
     unloaded_extension_paths_ := unloaded_extension_paths_ s;
     extension_prefs_ := extension_prefs_ s;
     extensions_enabled_ := extensions_enabled_ s; log_ := log_ s ++ effs |}.

(** ** Operations *)

(** [std::find] followed by [erase]: drop the first occurrence. *)
Fixpoint erase_first (x : Extension) (l : list Extension) : list Extension :=
  match l with
  | [] => []
  | y :: r => if decide (x = y) then r else y :: erase_first x r
  end.

Definition find_by_id (id : string) (l : list Extension) : option Extension :=
  List.find (fun e => bool_decide (ext_id e = id)) l.

(** [ExtensionsService::GetExtensionByIdInternal]. *)
Definition GetExtensionByIdInternal (s : Service) (id : string)
    (include_enabled include_disabled : bool) : option Extension :=
  let lowercase_id := StringToLowerASCII id in
  match (if include_enabled then find_by_id lowercase_id (extensions_ s) else None) with
  | Some e => Some e
  | None =>
      if include_disabled then find_by_id lowercase_id (disabled_extensions_ s)
      else None
  end.

(** [ExtensionsService::GetExtensionById] (extensions_service.h). *)
Definition GetExtensionById (s : Service) (id : string) (include_disabled : bool)
    : option Extension :=
  GetExtensionByIdInternal s id true include_disabled.

(** [ExtensionsService::ReportExtensionLoadError]. *)
Definition ReportExtensionLoadError (s : Service) (extension_path error : string)
    (ty : NotificationType) (be_noisy : bool) : Service :=
  add_log [Notify ty error;
           ReportError ("Could not load extension from '" ++ extension_path ++ "'. " ++ error)
                       be_noisy] s.

(** [ExtensionsService::UnloadExtension]; [None] is the failed [CHECK]. *)
Definition UnloadExtension (s : Service) (extension_id : string) : option Service :=
  match GetExtensionByIdInternal s extension_id true true with
  | None => None
  | Some e =>
      let s := add_log [UnregisterChromeURLOverrides (ext_id e)]
                 (set_unloaded (<[ext_id e := ext_path e]> (unloaded_extension_paths_ s)) s) in
      if bool_decide (e ∈ disabled_extensions_ s) then
        Some (add_log [Notify EXTENSION_UNLOADED_DISABLED (ext_id e)]
                (set_disabled (erase_first e (disabled_extensions_ s)) s))
      else
        Some (add_log [Notify EXTENSION_UNLOADED (ext_id e)]
                (set_extensions (erase_first e (extensions_ s)) s))
  end.

(** [ExtensionsService::EnableExtension]. *)
Definition EnableExtension (s : Service) (extension_id : string) : Service :=
  match GetExtensionByIdInternal s extension_id false true with
  | None => add_log [NotReached "Trying to enable an extension that isn't disabled."] s
  | Some e =>
      let s := set_prefs (SetExtensionState (extension_prefs_ s) e ENABLED) s in
      let s := set_extensions (extensions_ s ++ [e]) s in
      let s := set_disabled (erase_first e (disabled_extensions_ s)) s in
      add_log [RegisterChromeURLOverrides (ext_id e); Notify EXTENSION_LOADED (ext_id e)] s
  end.

(** [ExtensionsService::DisableExtension]. *)
Definition DisableExtension (s : Service) (extension_id : string) : Service :=
  match GetExtensionByIdInternal s extension_id true false with
  | None => s
  | Some e =>
      let s := set_prefs (SetExtensionState (extension_prefs_ s) e DISABLED) s in
      let s := set_disabled (disabled_extensions_ s ++ [e]) s in
      let s := set_extensions (erase_first e (extensions_ s)) s in
      add_log [UnregisterChromeURLOverrides (ext_id e); Notify EXTENSION_UNLOADED (ext_id e)] s
  end.

(** The branch condition at the top of [OnExtensionLoaded]. *)
Definition load_gate (s : Service) (e : Extension) : bool :=
  extensions_enabled_ s || ext_is_theme e || bool_decide (ext_location e = LOAD)
  || IsExternalLocation (ext_location e).

(** The [switch] on the stored state at the end of [OnExtensionLoaded]. *)
Definition place_loaded (s : Service) (e : Extension) : Service :=
  match GetExtensionState (extension_prefs_ s) (ext_id e) with
  | ENABLED =>
      add_log [Notify EXTENSION_LOADED (ext_id e); RegisterChromeURLOverrides (ext_id e)]
        (set_extensions (extensions_ s ++ [e]) s)
  | DISABLED =>
      add_log [Notify EXTENSION_UPDATE_DISABLED (ext_id e)]
        (set_disabled (disabled_extensions_ s ++ [e]) s)
  | KILLBIT => add_log [NotReached ""] s
  end.

(** [ExtensionsService::OnExtensionLoaded].  The transient
    [being_upgraded] flag is only read by notification listeners and is not
    modelled. *)
Definition OnExtensionLoaded (s : Service) (e : Extension)
    (allow_privilege_increase : bool) : option Service :=
  let s := set_unloaded (delete (ext_id e) (unloaded_extension_paths_ s)) s in
  if load_gate s e then
    match GetExtensionByIdInternal s (ext_id e) true true with
    | Some old =>
        match CompareTo (ext_version e) (ext_version old) with
        | Gt =>
            let allow_silent_upgrade :=
              allow_privilege_increase || negb (IsPrivilegeIncrease old e) in
            s1 ← UnloadExtension s (ext_id old);
            let s2 :=
              if allow_silent_upgrade then s1
              else set_prefs (SetDidExtensionEscalatePermissions
                                (SetExtensionState (extension_prefs_ s1) e DISABLED) e true) s1 in
            Some (place_loaded s2 e)
        | _ =>
            let error_message := "Duplicate extension load attempt: " ++ ext_id e in
            Some (ReportExtensionLoadError (add_log [LogWarning error_message] s)
                    (ext_path e) error_message EXTENSION_OVERINSTALL_ERROR false)
        end
    | None => Some (place_loaded s e)
    end
  else Some s.

(** [ExtensionsService::OnExtensionInstalled]. *)
Definition OnExtensionInstalled (s : Service) (e : Extension)
    (allow_privilege_increase : bool) : option Service :=
  let it := pending_extensions_ s !! ext_id e in
  if (match it with
      | Some p => negb (Bool.eqb (is_theme p) (ext_is_theme e))
      | None => false
      end) then
    Some (add_log [LogWarning ("Not installing pending extension " ++ ext_id e);
                   PostFileTask (DeleteFileHelper (ext_path e) true)] s)
  else
    let s := set_prefs (PrefsOnExtensionInstalled (extension_prefs_ s) e) s in
    let s := add_log [Notify (if ext_is_theme e then THEME_INSTALLED else EXTENSION_INSTALLED)
                             (ext_id e)] s in
    s ← OnExtensionLoaded s e allow_privilege_increase;
    Some (match it with
          | Some _ => set_pending (delete (ext_id e) (pending_extensions_ s)) s
          | None => s
          end).


(** [ExtensionsService::UpdateExtension]. *)
Definition UpdateExtension (s : Service) (id extension_path download_url : string)
    : Service :=
  let it := pending_extensions_ s !! id in
  match it, GetExtensionByIdInternal s id true true with
  | None, None =>
      add_log [LogWarning ("Will not update extension " ++ id ++
                           " because it is not installed or pending");
               PostFileTask (DeleteFileHelper extension_path false)] s
  | _, _ =>
      let silent := match it with None => true | Some p => install_silently p end in
      add_log [InstallCrx {| crx_path := extension_path; crx_expected_id := Some id;
                             crx_allow_privilege_increase := false; crx_silent := silent;
                             crx_delete_source := true; crx_install_source := None;
                             crx_original_url := Some download_url;
                             crx_force_web_origin_to_download_url := true |}] s
  end.

(** [ExtensionsService::AddPendingExtension]. *)
Definition AddPendingExtension (s : Service) (id url : string) (v : version)
    (theme silently : bool) : Service :=
  match GetExtensionByIdInternal s id true true with
  | Some _ => s
  | None =>
      set_pending (<[id := {| update_url := url; pending_version := v;
                              is_theme := theme; install_silently := silently |}]>
                     (pending_extensions_ s)) s
  end.

(** [ExtensionsService::LoadInstalledExtension]. *)
Definition LoadInstalledExtension (s : Service) (info : ExtensionInfo)
    (write_to_prefs : bool) : option Service :=
  let r := match info_manifest info with
           | Some m => InitFromValue (info_path info) m
                         (negb (bool_decide (info_location info = LOAD)))
           | None => inl "Manifest is missing or unreadable."
           end in
  match r with
  | inl error =>
      Some (ReportExtensionLoadError s (info_path info) error EXTENSION_INSTALL_ERROR false)
  | inr e0 =>
      let e := set_location (info_location info) e0 in
      let s := if write_to_prefs then set_prefs (UpdateManifest (extension_prefs_ s) e) s
               else s in
      s ← OnExtensionLoaded s e true;
      Some (if bool_decide (info_location info = EXTERNAL_PREF)
               || bool_decide (info_location info = EXTERNAL_REGISTRY)
            then add_log [PostFileTask (CheckExternalUninstall (info_id info)
                                                               (info_location info))] s
            else s)
  end.

(** [ExtensionsService::ReloadExtension].  The detaching of an open
    inspector (which only fills [orphaned_dev_tools_]) is not modelled;
    [unloaded_extension_paths_[id]] inserts an empty path when absent. *)
Definition ReloadExtension (s : Service) (extension_id : string) : option Service :=
  sp ← match GetExtensionById s extension_id false with
       | Some current_extension =>
           s1 ← UnloadExtension s extension_id; Some (s1, ext_path current_extension)
       | None =>
           Some (match unloaded_extension_paths_ s !! extension_id with
                 | Some p => (s, p)
                 | None => (set_unloaded (<[extension_id := ""]>
                                            (unloaded_extension_paths_ s)) s, "")
                 end)
       end;
  let '(s1, path) := sp in
  match GetInstalledExtensionInfo (extension_prefs_ s1) extension_id with
  | Some info =>
      match info_manifest info with
      | Some _ => LoadInstalledExtension s1 info false
      | None =>
          if bool_decide (path = "") then None
          else Some (add_log [PostFileTask (LoadSingleExtension path)] s1)
      end
  | None =>
      if bool_decide (path = "") then None
      else Some (add_log [PostFileTask (LoadSingleExtension path)] s1)
  end.

(** [ExtensionsService::UninstallExtension]; the [DCHECK] on a missing
    extension is followed by a null dereference: [None]. *)
Definition UninstallExtension (s : Service) (extension_id : string)
    (external_uninstall : bool) : option Service :=
  match GetExtensionByIdInternal s extension_id true true with
  | None => None
  | Some e =>
      let location := ext_location e in
      s1 ← UnloadExtension s extension_id;
      let s2 := set_prefs (PrefsOnExtensionUninstalled (extension_prefs_ s1) extension_id
                             location external_uninstall) s1 in
      let s3 := if bool_decide (location = LOAD) then s2
                else add_log [PostFileTask (UninstallExtensionFiles extension_id)] s2 in
      Some (add_log [ClearExtensionData (ext_id e)] s3)
  end.

(** The second loop of [UpdateExtensionBlacklist]. *)
Fixpoint unload_all (s : Service) (ids : list string) : option Service :=
  match ids with
  | [] => Some s
  | id :: r => s1 ← UnloadExtension s id; unload_all s1 r
  end.

(** [ExtensionsService::UpdateExtensionBlacklist]. *)
Definition UpdateExtensionBlacklist (s : Service) (blacklist : list string)
    : option Service :=
  let blacklist_set : gset string :=
    list_to_set (filter (fun i => IdIsValid i = true) blacklist) in
  let s := set_prefs (UpdateBlacklist (extension_prefs_ s) blacklist_set) s in
  let to_be_removed :=
    ext_id <$> filter (fun e => ext_id e ∈ blacklist_set) (extensions_ s) in
  unload_all s to_be_removed.

(** [ExtensionsService::OnExternalExtensionFound]; an unparsable version
    string is dereferenced when an extension exists: [None]. *)
Definition OnExternalExtensionFound (s : Service) (id vstr path : string)
    (location : Location) : option Service :=
  let install :=
    add_log [InstallCrx {| crx_path := path; crx_expected_id := Some id;
                           crx_allow_privilege_increase := true; crx_silent := true;
                           crx_delete_source := false; crx_install_source := Some location;
                           crx_original_url := None;
                           crx_force_web_origin_to_download_url := false |}] s in
  match GetExtensionById s id true with
  | Some existing =>
      match GetVersionFromString vstr with
      | None => None
      | Some other =>
          match CompareTo (ext_version existing) other with
          | Lt => Some install
          | Eq => Some s
          | Gt => Some (add_log [LogWarning ("Found external version of extension " ++ id ++
                                             " that is older than current version.")] s)
          end
      end
  | None => Some install
  end.

(** Tasks the FILE-thread backend posts back to the UI thread. *)
Inductive UITask :=
  | UI_OnExtensionInstalled (e : Extension) (allow_privilege_increase : bool)
  | UI_ReportExtensionLoadError (path error : string) (ty : NotificationType)
                                (be_noisy : bool).

(** [ExtensionsServiceBackend::LoadSingleExtension]. *)
Definition Backend_LoadSingleExtension (path_in : string) : UITask :=
  let extension_path := AbsolutePath path_in in
  match LoadExtensionFromDisk extension_path with
  | inl error => UI_ReportExtensionLoadError extension_path error EXTENSION_INSTALL_ERROR true
  | inr e => UI_OnExtensionInstalled (set_location LOAD e) true
  end.

(** Running a posted task on the UI thread. *)
Definition RunUITask (s : Service) (t : UITask) : option Service :=
  match t with
  | UI_OnExtensionInstalled e allow => OnExtensionInstalled s e allow
  | UI_ReportExtensionLoadError path error ty noisy =>
      Some (ReportExtensionLoadError s path error ty noisy)
  end.

(** [ExtensionsService::UnloadAllExtensions]: the enabled records are
    deleted, with no notification; the Disabled list is kept. *)
Definition UnloadAllExtensions (s : Service) : Service := set_extensions [] s.

(** ** The registry invariant *)

(** All registered records, enabled first. *)
Definition registered (s : Service) : list Extension :=
  extensions_ s ++ disabled_extensions_ s.

Definition lowercase_id (e : Extension) : Prop :=
  StringToLowerASCII (ext_id e) = ext_id e.

(** Identifiers are unique over both lists together (hence the lists are
    disjoint) and, as generated by the extension loader, lowercase. *)
Definition wf_list (l : list Extension) : Prop :=
  NoDup (ext_id <$> l) ∧ Forall lowercase_id l.

Definition wf (s : Service) : Prop := wf_list (registered s).




(** ** Lemmas on the lookups and the list updates *)

Lemma find_by_id_Some id l e :
  find_by_id id l = Some e → e ∈ l ∧ ext_id e = id.
Proof.
  unfold find_by_id. intros H. apply List.find_some in H as [Hin Hb].
  apply bool_decide_eq_true in Hb. split; [by apply list_elem_of_In | done].
Qed.

Lemma find_by_id_None id l e :
  find_by_id id l = None → e ∈ l → ext_id e ≠ id.
Proof.
  unfold find_by_id. intros H Hin Heq.
  apply list_elem_of_In in Hin. pose proof (List.find_none _ _ H e Hin) as Hb.
  rewrite bool_decide_eq_false in Hb. done.
Qed.

Lemma find_by_id_elem l e :
  NoDup (ext_id <$> l) → e ∈ l → find_by_id (ext_id e) l = Some e.
Proof.
  induction l as [|y l IH]; intros Hnd Hin; [by apply elem_of_nil in Hin|].
  rewrite fmap_cons, NoDup_cons in Hnd. destruct Hnd as [Hy Hnd].
  unfold find_by_id; simpl. case_bool_decide as Heq.
  - apply elem_of_cons in Hin as [->|Hin]; [done|].
    exfalso. apply Hy. rewrite Heq. apply list_elem_of_fmap. eauto.
  - apply elem_of_cons in Hin as [->|Hin]; [done|]. by apply IH.
Qed.

Lemma Get_Some s id inc_en inc_dis e :
  GetExtensionByIdInternal s id inc_en inc_dis = Some e →
  ext_id e = StringToLowerASCII id ∧
  ((inc_en = true ∧ e ∈ extensions_ s) ∨ (inc_dis = true ∧ e ∈ disabled_extensions_ s)).
Proof.
  unfold GetExtensionByIdInternal. intros H.
  destruct inc_en.
  - destruct (find_by_id _ (extensions_ s)) as [e'|] eqn:Hf.
    + injection H as <-. apply find_by_id_Some in Hf. naive_solver.
    + destruct inc_dis; [|done]. apply find_by_id_Some in H. naive_solver.
  - destruct inc_dis; [|done]. apply find_by_id_Some in H. naive_solver.
Qed.

Lemma Get_None s id e :
  GetExtensionByIdInternal s id true true = None → e ∈ registered s →
  ext_id e ≠ StringToLowerASCII id.
Proof.
  unfold GetExtensionByIdInternal, registered. cbv beta iota.
  destruct (find_by_id _ (extensions_ s)) eqn:Hf; [intros; discriminate|]. intros Hf2 Hin.
  apply elem_of_app in Hin as [Hin|Hin].
  - exact (find_by_id_None _ _ _ Hf Hin).
  - exact (find_by_id_None _ _ _ Hf2 Hin).
Qed.

Lemma wf_lowercase s e : wf s → e ∈ registered s → lowercase_id e.
Proof. intros [_ Hl] Hin. by eapply Forall_forall in Hl. Qed.

Lemma wf_disjoint s e :
  wf s → e ∈ extensions_ s → ∀ e', e' ∈ disabled_extensions_ s → ext_id e' ≠ ext_id e.
Proof.
  intros [Hnd _] He e' He' Heq. unfold registered in Hnd.
  rewrite fmap_app, NoDup_app in Hnd. destruct Hnd as (_ & Hd & _).
  apply (Hd (ext_id e)); apply list_elem_of_fmap; eauto.
Qed.

(** On a well-formed state the lookup by a record's own identifier finds
    that record. *)
Lemma Get_registered s e :
  wf s → e ∈ registered s → GetExtensionByIdInternal s (ext_id e) true true = Some e.
Proof.
  intros Hwf Hin. pose proof (wf_lowercase _ _ Hwf Hin) as Hlow.
  destruct Hwf as [Hnd Hl]. unfold registered in Hnd.
  rewrite fmap_app, NoDup_app in Hnd. destruct Hnd as (Hnd1 & Hd & Hnd2).
  unfold GetExtensionByIdInternal. rewrite Hlow.
  apply elem_of_app in Hin as [Hin|Hin].
  - by rewrite find_by_id_elem.
  - destruct (find_by_id (ext_id e) (extensions_ s)) as [e'|] eqn:Hf.
    + apply find_by_id_Some in Hf as [Hin' Heq]. exfalso.
      apply (Hd (ext_id e)); apply list_elem_of_fmap; eauto.
    + by apply find_by_id_elem.
Qed.

Lemma erase_first_perm x l : x ∈ l → l ≡ₚ x :: erase_first x l.
Proof.
  induction l as [|y l IH]; intros Hin; [by apply elem_of_nil in Hin|]. simpl.
  case_decide as Heq; [by subst|].
  apply elem_of_cons in Hin as [->|Hin]; [done|].
  transitivity (y :: x :: erase_first x l); [by apply perm_skip, IH|].
  apply perm_swap.
Qed.

Lemma erase_first_notin x l : x ∉ l → erase_first x l = l.
Proof.
  induction l as [|y l IH]; intros Hin; [done|]. simpl.
  case_decide as Heq; [subst; by destruct Hin; left|].
  rewrite IH; [done|]. intros H. apply Hin. by right.
Qed.

Lemma wf_list_perm l k : l ≡ₚ k → wf_list l → wf_list k.
Proof. intros Hp [Hnd Hl]. split; [by rewrite <- Hp | by rewrite <- Hp]. Qed.

Lemma wf_list_cons x l : wf_list (x :: l) → wf_list l.
Proof.
  intros [Hnd Hl]. rewrite fmap_cons, NoDup_cons in Hnd. inversion Hl; subst.
  split; naive_solver.
Qed.

Lemma filter_id_none l i :
  (∀ x, x ∈ l → ext_id x ≠ i) → filter (fun x => ext_id x = i) l = [].
Proof.
  induction l as [|y l IH]; intros H; [done|].
  rewrite filter_cons_False; [apply IH; intros x Hx; apply H; by right|].
  apply H. by left.
Qed.

(** Exactly one record carries the identifier of a registered record. *)
Lemma filter_id_single l e :
  NoDup (ext_id <$> l) → e ∈ l → filter (fun x => ext_id x = ext_id e) l = [e].
Proof.
  induction l as [|y l IH]; intros Hnd Hin; [by apply elem_of_nil in Hin|].
  rewrite fmap_cons, NoDup_cons in Hnd. destruct Hnd as [Hy Hnd].
  rewrite filter_cons. apply elem_of_cons in Hin as [->|Hin].
  - rewrite decide_True by done. f_equal.
    apply filter_id_none. intros x Hx Heq. apply Hy. rewrite <- Heq.
    apply list_elem_of_fmap. eauto.
  - rewrite decide_False; [by apply IH|].
    intros Heq. apply Hy. rewrite Heq. apply list_elem_of_fmap. eauto.
Qed.

Lemma erase_first_elem l e x :
  NoDup (ext_id <$> l) → e ∈ l →
  x ∈ erase_first e l ↔ x ∈ l ∧ ext_id x ≠ ext_id e.
Proof.
  intros Hnd Hin. pose proof (erase_first_perm _ _ Hin) as Hp.
  set (k := erase_first e l) in *. clearbody k.
  rewrite Hp, fmap_cons, NoDup_cons in Hnd. destruct Hnd as [He _].
  rewrite Hp, elem_of_cons. split.
  - intros Hx. split; [by right|]. intros Heq. apply He. rewrite <- Heq.
    apply list_elem_of_fmap. eauto.
  - intros [[->|Hx] Hne]; done.
Qed.

(** ** UnloadExtension *)

Lemma Unload_perm s id s' :
  UnloadExtension s id = Some s' →
  ∃ e, GetExtensionByIdInternal s id true true = Some e ∧
       registered s ≡ₚ e :: registered s' ∧
       unloaded_extension_paths_ s' = <[ext_id e := ext_path e]> (unloaded_extension_paths_ s) ∧
       extension_prefs_ s' = extension_prefs_ s ∧
       pending_extensions_ s' = pending_extensions_ s ∧
       extensions_enabled_ s' = extensions_enabled_ s.
Proof.
  unfold UnloadExtension. destruct (GetExtensionByIdInternal s id true true) as [e|] eqn:HG;
    [|discriminate].
  case_bool_decide as Hd; intros [= <-]; exists e; split; try done;
    unfold registered; simpl; (split; [|done]).
  - pose proof (erase_first_perm _ _ Hd) as Hp.
    set (k := erase_first e _) in *. clearbody k.
    rewrite Hp. symmetry. apply Permutation_middle.
  - apply Get_Some in HG as [_ [[_ Hin]|[_ Hin]]]; [|done].
    pose proof (erase_first_perm _ _ Hin) as Hp.
    set (k := erase_first e _) in *. clearbody k.
    by rewrite Hp.
Qed.

Lemma Unload_wf s id s' : wf s → UnloadExtension s id = Some s' → wf s'.
Proof.
  intros Hwf (e & _ & Hp & _)%Unload_perm. unfold wf in *.
  apply (wf_list_cons e). by eapply wf_list_perm.
Qed.

Lemma Unload_registered s id s' e x :
  wf s → UnloadExtension s id = Some s' → GetExtensionByIdInternal s id true true = Some e →
  x ∈ registered s' ↔ x ∈ registered s ∧ ext_id x ≠ ext_id e.
Proof.
  intros [Hnd _] HU HG. apply Unload_perm in HU as (e' & HG' & Hp & _).
  rewrite HG in HG'. injection HG' as <-.
  rewrite Hp, fmap_cons, NoDup_cons in Hnd. destruct Hnd as [He _].
  rewrite Hp, elem_of_cons. split.
  - intros Hx. split; [by right|]. intros Heq. apply He. rewrite <- Heq.
    apply list_elem_of_fmap. eauto.
  - intros [[->|Hx] Hne]; done.
Qed.

(** Unloading an enabled record, step by step. *)
Lemma Unload_enabled s e :
  wf s → e ∈ extensions_ s →
  UnloadExtension s (ext_id e) =
    Some (add_log [Notify EXTENSION_UNLOADED (ext_id e)]
           (set_extensions (erase_first e (extensions_ s))
             (add_log [UnregisterChromeURLOverrides (ext_id e)]
               (set_unloaded (<[ext_id e := ext_path e]> (unloaded_extension_paths_ s)) s)))).
Proof.
  intros Hwf Hin. unfold UnloadExtension.
  rewrite Get_registered by (done || (unfold registered; apply elem_of_app; by left)).
  rewrite bool_decide_eq_false_2; [done|]. simpl. intros Hd.
  by apply (wf_disjoint s e Hwf Hin e Hd).
Qed.

(** Unloading a disabled record, step by step. *)
Lemma Unload_disabled s e :
  wf s → e ∈ disabled_extensions_ s →
  UnloadExtension s (ext_id e) =
    Some (add_log [Notify EXTENSION_UNLOADED_DISABLED (ext_id e)]
           (set_disabled (erase_first e (disabled_extensions_ s))
             (add_log [UnregisterChromeURLOverrides (ext_id e)]
               (set_unloaded (<[ext_id e := ext_path e]> (unloaded_extension_paths_ s)) s)))).
Proof.
  intros Hwf Hin. unfold UnloadExtension.
  rewrite Get_registered by (done || (unfold registered; apply elem_of_app; by right)).
  by rewrite bool_decide_eq_true_2.
Qed.

(** ** The placement at the end of OnExtensionLoaded *)

Lemma place_loaded_perm s e :
  GetExtensionState (extension_prefs_ s) (ext_id e) ≠ KILLBIT →
  registered (place_loaded s e) ≡ₚ e :: registered s.
Proof.
  unfold place_loaded, registered.
  destruct (GetExtensionState _ _); intros H; simpl.
  - solve_Permutation.
  - solve_Permutation.
  - done.
Qed.

Lemma place_loaded_killbit s e :
  GetExtensionState (extension_prefs_ s) (ext_id e) = KILLBIT →
  registered (place_loaded s e) = registered s.
Proof. unfold place_loaded. by intros ->. Qed.

Lemma place_loaded_fields s e :
  extension_prefs_ (place_loaded s e) = extension_prefs_ s ∧
  unloaded_extension_paths_ (place_loaded s e) = unloaded_extension_paths_ s ∧
  pending_extensions_ (place_loaded s e) = pending_extensions_ s ∧
  extensions_enabled_ (place_loaded s e) = extensions_enabled_ s.
Proof. unfold place_loaded. by destruct (GetExtensionState _ _). Qed.

Lemma wf_list_cons_intro e l :
  wf_list l → lowercase_id e → (∀ x, x ∈ l → ext_id x ≠ ext_id e) → wf_list (e :: l).
Proof.
  intros [Hnd Hl] He Hx. split.
  - rewrite fmap_cons, NoDup_cons. split; [|done].
    intros (y & Hy & Hin)%list_elem_of_fmap. by apply (Hx y).
  - by constructor.
Qed.

Lemma place_loaded_wf s e :
  wf s → lowercase_id e → (∀ x, x ∈ registered s → ext_id x ≠ ext_id e) →
  wf (place_loaded s e).
Proof.
  intros Hwf He Hx. unfold wf.
  destruct (decide (GetExtensionState (extension_prefs_ s) (ext_id e) = KILLBIT)) as [Hk|Hk].
  - by rewrite place_loaded_killbit.
  - eapply wf_list_perm; [symmetry; by apply place_loaded_perm|].
    by apply wf_list_cons_intro.
Qed.

Lemma place_loaded_elem s e :
  GetExtensionState (extension_prefs_ s) (ext_id e) ≠ KILLBIT →
  e ∈ registered (place_loaded s e).
Proof. intros Hk. rewrite place_loaded_perm by done. by left. Qed.

Lemma Unload_Some s id e :
  GetExtensionByIdInternal s id true true = Some e → ∃ s', UnloadExtension s id = Some s'.
Proof. unfold UnloadExtension. intros ->. case_bool_decide; eauto. Qed.

(** ** OnExtensionLoaded preserves the invariant *)

Lemma OnExtensionLoaded_wf s e allow s' :
  wf s → lowercase_id e → OnExtensionLoaded s e allow = Some s' → wf s'.
Proof.
  intros Hwf He. unfold OnExtensionLoaded. cbv zeta.
  set (s0 := set_unloaded _ s).
  assert (Hwf0 : wf s0) by done.
  destruct (load_gate s0 e); [|by intros [= <-]].
  destruct (GetExtensionByIdInternal s0 (ext_id e) true true) as [old|] eqn:HG.
  - pose proof (Get_Some _ _ _ _ _ HG) as [Hid Hin].
    assert (Hreg : old ∈ registered s0).
    { unfold registered. apply elem_of_app. naive_solver. }
    destruct (CompareTo _ _); [by intros [= <-]|by intros [= <-]|].
    destruct (UnloadExtension s0 (ext_id old)) as [s1|] eqn:HU; [|discriminate].
    simpl. intros [= <-]. apply place_loaded_wf; [| done |].
    + destruct (_ || _); [|change (wf s1)]; by eapply Unload_wf.
    + intros x Hx. assert (Hx1 : x ∈ registered s1)
        by (destruct (_ || _); [done|exact Hx]).
      rewrite (Unload_registered s0 _ s1 old x Hwf0 HU) in Hx1
        by (by apply Get_registered).
      rewrite Hid, He in Hx1. naive_solver.
  - intros [= <-]. apply place_loaded_wf; [done|done|].
    intros x Hx. pose proof (Get_None _ _ _ HG Hx). by rewrite He in H.
Qed.

(** ** C1: upgrade arbitration in OnExtensionLoaded *)

(** C1 (amended).  When the load gate of [OnExtensionLoaded] is open
    (extensions enabled, or a theme, an unpacked or an external extension),
    the state is well formed, the stored state of the identifier is ENABLED or
    DISABLED, and a record [old] with the identifier of the new record [e] is
    registered with a version lower than [e]'s: the old record is unloaded
    (its path is remembered), [e] becomes the only record of the identifier
    (so the registered version is [e]'s); when the upgrade is not silent
    ([allow_privilege_increase] false and a privilege increase), [e] is
    placed in the Disabled list, its stored state is DISABLED and its
    permissions-escalated flag is persisted as true.  When the gate is
    closed, the new record is dropped: the registered records are unchanged
    and [old] stays the only record of the identifier. *)
Theorem OnExtensionLoaded_upgrade s e old allow :
  wf s → lowercase_id e →
  old ∈ registered s → ext_id old = ext_id e →
  CompareTo (ext_version e) (ext_version old) = Gt →
  (load_gate s e = true →
   GetExtensionState (extension_prefs_ s) (ext_id e) ≠ KILLBIT →
   ∃ s', OnExtensionLoaded s e allow = Some s' ∧
     unloaded_extension_paths_ s' !! ext_id e = Some (ext_path old) ∧
     filter (fun x => ext_id x = ext_id e) (registered s') = [e] ∧
     (allow || negb (IsPrivilegeIncrease old e) = false →
        e ∈ disabled_extensions_ s' ∧
        GetExtensionState (extension_prefs_ s') (ext_id e) = DISABLED ∧
        pref_escalated (extension_prefs_ s') !! ext_id e = Some true)) ∧
  (load_gate s e = false →
   ∃ s', OnExtensionLoaded s e allow = Some s' ∧
     registered s' = registered s ∧
     filter (fun x => ext_id x = ext_id e) (registered s') = [old]).
Proof.
  intros Hwf He Hold Hid Hcmp. split.
  2:{ intros Hgate. unfold OnExtensionLoaded. cbv zeta.
      change (load_gate (set_unloaded _ s) e) with (load_gate s e). rewrite Hgate.
      eexists. split; [done|]. split; [done|].
      change (registered (set_unloaded (delete (ext_id e) (unloaded_extension_paths_ s)) s))
        with (registered s).
      rewrite <- Hid. apply filter_id_single; [apply Hwf|done]. }
  intros Hgate Hk. unfold OnExtensionLoaded. cbv zeta.
  set (s0 := set_unloaded _ s).
  assert (Hwf0 : wf s0) by done.
  change (load_gate s0 e) with (load_gate s e). rewrite Hgate.
  assert (HG : GetExtensionByIdInternal s0 (ext_id e) true true = Some old).
  { rewrite <- Hid. by apply Get_registered. }
  rewrite HG, Hcmp.
  assert (HG' : GetExtensionByIdInternal s0 (ext_id old) true true = Some old)
    by (by rewrite Hid).
  destruct (Unload_Some _ _ _ HG') as [s1 HU]. rewrite HU. simpl.
  pose proof (Unload_perm _ _ _ HU) as (old' & HG'' & Hp & Hunl & Hpref & _).
  rewrite HG' in HG''. injection HG'' as <-.
  pose proof (Unload_wf _ _ _ Hwf0 HU) as Hwf1.
  assert (Hfresh : ∀ x, x ∈ registered s1 → ext_id x ≠ ext_id e).
  { intros x Hx. rewrite (Unload_registered s0 _ s1 old x Hwf0 HU HG') in Hx.
    rewrite <- Hid. naive_solver. }
  eexists. split; [done|].
  destruct (allow || negb (IsPrivilegeIncrease old e)) eqn:Hsilent.
  - pose proof (place_loaded_fields s1 e) as (Hpf & Huf & _).
    assert (Hk1 : GetExtensionState (extension_prefs_ s1) (ext_id e) ≠ KILLBIT)
      by (by rewrite Hpref).
    split; [rewrite Huf, Hunl, Hid; apply lookup_insert_eq|].
    split; [|done].
    apply filter_id_single; [apply place_loaded_wf; done|by apply place_loaded_elem].
  - set (s2 := set_prefs _ s1).
    assert (Hst : GetExtensionState (extension_prefs_ s2) (ext_id e) = DISABLED).
    { unfold GetExtensionState. simpl. by rewrite lookup_insert_eq. }
    pose proof (place_loaded_fields s2 e) as (Hpf & Huf & _).
    split; [rewrite Huf; simpl; rewrite Hunl, Hid; apply lookup_insert_eq|].
    split.
    { apply filter_id_single; [apply place_loaded_wf; done|].
      apply place_loaded_elem. by rewrite Hst. }
    intros _. split; [|split].
    + unfold place_loaded. rewrite Hst. simpl. apply elem_of_app. right. by left.
    + by rewrite Hpf.
    + rewrite Hpf. simpl. apply lookup_insert_eq.
Qed.

Lemma find_by_id_None_intro i l :
  (∀ r, r ∈ l → ext_id r ≠ i) → find_by_id i l = None.
Proof.
  unfold find_by_id. induction l as [|y l IH]; intros H; [done|]. simpl.
  rewrite bool_decide_eq_false_2; [|apply H; by left].
  apply IH. intros r Hr. apply H. by right.
Qed.

Lemma Get_enabled s id e :
  wf s → e ∈ extensions_ s → ext_id e = StringToLowerASCII id →
  GetExtensionByIdInternal s id true true = Some e.
Proof.
  intros [Hnd _] Hin Hid. unfold registered in Hnd.
  rewrite fmap_app, NoDup_app in Hnd. destruct Hnd as (Hnd1 & _ & _).
  unfold GetExtensionByIdInternal. rewrite <- Hid. by rewrite find_by_id_elem.
Qed.

(** ** C4: a stale or duplicate load *)

(** C4 (amended).  On a well-formed state, when a record [old] with the
    identifier of the new record [e] is registered and [e]'s version is not
    greater than [old]'s, [OnExtensionLoaded] discards [e]: both lists and
    the preferences are unchanged.  The duplicate-load diagnostic (a warning,
    an [EXTENSION_OVERINSTALL_ERROR] notification and an error report) is
    emitted exactly when the load gate is open (extensions enabled, or a
    theme, an unpacked or an external extension); when it is closed nothing
    is reported. *)
Theorem OnExtensionLoaded_stale s e old allow :
  wf s → lowercase_id e → old ∈ registered s → ext_id old = ext_id e →
  CompareTo (ext_version e) (ext_version old) ≠ Gt →
  ∃ s', OnExtensionLoaded s e allow = Some s' ∧
    extensions_ s' = extensions_ s ∧
    disabled_extensions_ s' = disabled_extensions_ s ∧
    extension_prefs_ s' = extension_prefs_ s ∧
    log_ s' = app (log_ s)
      (if load_gate s e then
         [LogWarning ("Duplicate extension load attempt: " ++ ext_id e);
          Notify EXTENSION_OVERINSTALL_ERROR ("Duplicate extension load attempt: " ++ ext_id e);
          ReportError ("Could not load extension from '" ++ ext_path e ++ "'. " ++
                       ("Duplicate extension load attempt: " ++ ext_id e)) false]
       else []).
Proof.
  intros Hwf He Hold Hid Hcmp. unfold OnExtensionLoaded. cbv zeta.
  set (s0 := set_unloaded _ s).
  assert (Hwf0 : wf s0) by done.
  change (load_gate s0 e) with (load_gate s e).
  destruct (load_gate s e).
  - assert (HG : GetExtensionByIdInternal s0 (ext_id e) true true = Some old).
    { rewrite <- Hid. by apply Get_registered. }
    rewrite HG. destruct (CompareTo _ _); [| |done]; eexists; split; try done;
      simpl; by rewrite <- app_assoc.
  - eexists. split; [done|]. simpl. by rewrite app_nil_r.
Qed.

(** ** C10: the load gate *)

(** C10.  When extensions are disabled and the new record is neither a
    theme, nor an unpacked (LOAD) extension, nor from an external location,
    [OnExtensionLoaded] only erases the identifier from the unloaded-path
    map: the record is discarded, neither list gains an entry and nothing is
    notified. *)
Theorem OnExtensionLoaded_gate_closed s e allow :
  extensions_enabled_ s = false → ext_is_theme e = false →
  ext_location e ≠ LOAD → IsExternalLocation (ext_location e) = false →
  OnExtensionLoaded s e allow =
    Some (set_unloaded (delete (ext_id e) (unloaded_extension_paths_ s)) s).
Proof.
  intros Hen Ht Hl Hx. unfold OnExtensionLoaded, load_gate. simpl.
  rewrite Hen, Ht, Hx, bool_decide_eq_false_2 by done. done.
Qed.

(** ** C3: a pending entry whose theme flag does not match *)

(** C3.  When a pending entry exists for the installed extension's
    identifier and its theme flag differs from the bundle's, the install is
    rejected: the only effects are a warning and the recursive deletion of
    the bundle's directory posted to the FILE thread; the lists, the
    preferences (no install metadata) and the pending map are unchanged and
    no install notification is sent. *)
Theorem OnExtensionInstalled_theme_mismatch s e p allow :
  pending_extensions_ s !! ext_id e = Some p → is_theme p ≠ ext_is_theme e →
  ∃ s', OnExtensionInstalled s e allow = Some s' ∧
    extensions_ s' = extensions_ s ∧
    disabled_extensions_ s' = disabled_extensions_ s ∧
    extension_prefs_ s' = extension_prefs_ s ∧
    pending_extensions_ s' = pending_extensions_ s ∧
    log_ s' = app (log_ s) [LogWarning ("Not installing pending extension " ++ ext_id e);
                         PostFileTask (DeleteFileHelper (ext_path e) true)].
Proof.
  intros Hp Hne. unfold OnExtensionInstalled. rewrite Hp.
  destruct (is_theme p), (ext_is_theme e); try done; simpl; by eexists.
Qed.

(** ** C5: an update for an unknown identifier *)

Lemma Get_None_intro s id :
  (∀ r, r ∈ registered s → ext_id r ≠ StringToLowerASCII id) →
  GetExtensionByIdInternal s id true true = None.
Proof.
  intros H. unfold GetExtensionByIdInternal. simpl.
  rewrite !find_by_id_None_intro; [done| |];
    intros r Hr; apply H; unfold registered; apply elem_of_app; by (left + right).
Qed.

(** C5.  [UpdateExtension] for an identifier that is neither pending nor
    registered (enabled or disabled) creates no installer: it logs a warning
    and posts the deletion of the supplied bundle file; the lists and the
    pending map are unchanged. *)
Theorem UpdateExtension_unknown s id extension_path download_url :
  pending_extensions_ s !! id = None →
  (∀ r, r ∈ registered s → ext_id r ≠ StringToLowerASCII id) →
  let s' := UpdateExtension s id extension_path download_url in
  extensions_ s' = extensions_ s ∧
  disabled_extensions_ s' = disabled_extensions_ s ∧
  pending_extensions_ s' = pending_extensions_ s ∧
  log_ s' = app (log_ s) [LogWarning ("Will not update extension " ++ id ++
                                   " because it is not installed or pending");
                       PostFileTask (DeleteFileHelper extension_path false)].
Proof.
  intros Hp Hr. unfold UpdateExtension. rewrite Hp, Get_None_intro by done.
  done.
Qed.

(** ** C6: an externally registered version against the installed one *)

(** C6.  For an identifier registered in the Enabled list (state well
    formed) and a discovered version string that parses to [v]:
    [OnExternalExtensionFound] starts a silent install of the discovered
    bundle when the registered version is older than [v]; returns with the
    state unchanged when they are equal; and only logs a warning, keeping
    the registered version, when the registered version is newer. *)
Theorem OnExternalExtensionFound_versions s id vstr path location existing v :
  wf s → existing ∈ extensions_ s → ext_id existing = StringToLowerASCII id →
  GetVersionFromString vstr = Some v →
  (CompareTo (ext_version existing) v = Lt →
     OnExternalExtensionFound s id vstr path location =
       Some (add_log [InstallCrx {| crx_path := path; crx_expected_id := Some id;
                                   crx_allow_privilege_increase := true; crx_silent := true;
                                   crx_delete_source := false;
                                   crx_install_source := Some location;
                                   crx_original_url := None;
                                   crx_force_web_origin_to_download_url := false |}] s)) ∧
  (CompareTo (ext_version existing) v = Eq →
     OnExternalExtensionFound s id vstr path location = Some s) ∧
  (CompareTo (ext_version existing) v = Gt →
     ∃ msg, OnExternalExtensionFound s id vstr path location =
              Some (add_log [LogWarning msg] s)).
Proof.
  intros Hwf Hin Hid Hv. unfold OnExternalExtensionFound, GetExtensionById.
  rewrite (Get_enabled s id existing Hwf Hin Hid), Hv.
  split; [|split]; intros Hc; rewrite Hc; eauto.
Qed.

(** ** C9: enabling or disabling an extension that is not in the source list *)

(** C9 (amended).  [EnableExtension] for an identifier not in the Disabled
    list changes neither list nor the preferences and sends no notification:
    its only effect is the [NOTREACHED] diagnostic.  [DisableExtension] for
    an identifier not in the Enabled list returns silently: the state is
    entirely unchanged and no diagnostic is emitted. *)
Theorem Enable_Disable_absent s id :
  ((∀ r, r ∈ disabled_extensions_ s → ext_id r ≠ StringToLowerASCII id) →
     EnableExtension s id =
       add_log [NotReached "Trying to enable an extension that isn't disabled."] s) ∧
  ((∀ r, r ∈ extensions_ s → ext_id r ≠ StringToLowerASCII id) →
     DisableExtension s id = s).
Proof.
  split; intros H.
  - unfold EnableExtension, GetExtensionByIdInternal. simpl.
    by rewrite find_by_id_None_intro.
  - unfold DisableExtension, GetExtensionByIdInternal. simpl.
    by rewrite find_by_id_None_intro.
Qed.

(** ** C2: the blacklist update *)

Lemma wf_enabled_nodup s : wf s → NoDup (ext_id <$> extensions_ s).
Proof.
  intros [Hnd _]. unfold registered in Hnd. rewrite fmap_app, NoDup_app in Hnd. naive_solver.
Qed.

Lemma unload_all_enabled ids s :
  wf s → NoDup ids → (∀ i, i ∈ ids → i ∈ ext_id <$> extensions_ s) →
  ∃ s', unload_all s ids = Some s' ∧ wf s' ∧
    disabled_extensions_ s' = disabled_extensions_ s ∧
    extension_prefs_ s' = extension_prefs_ s ∧
    (∀ x, x ∈ extensions_ s' ↔ x ∈ extensions_ s ∧ ext_id x ∉ ids).
Proof.
  revert s. induction ids as [|i ids IH]; intros s Hwf Hnd Hids.
  - exists s. split; [done|]. split; [done|]. split; [done|]. split; [done|].
    intros x. split; [|naive_solver]. intros Hx. split; [done|]. apply not_elem_of_nil.
  - pose proof (Hids i (proj2 (elem_of_cons _ _ _) (or_introl eq_refl))) as Hi0.
    apply list_elem_of_fmap in Hi0 as (e & -> & He).
    rewrite NoDup_cons in Hnd. destruct Hnd as [Hi Hnd].
    simpl. rewrite (Unload_enabled s e Hwf He). simpl.
    set (s1 := add_log _ _).
    assert (Hwf1 : wf s1).
    { eapply Unload_wf; [exact Hwf|]. by rewrite Unload_enabled. }
    pose proof (wf_enabled_nodup s Hwf) as Hnde.
    destruct (IH s1 Hwf1 Hnd) as (s' & Hu & Hwf' & Hd & Hp & Hm).
    { intros j Hj. simpl.
      pose proof (Hids j (proj2 (elem_of_cons _ _ _) (or_intror Hj))) as Hj0.
      apply list_elem_of_fmap in Hj0 as (y & -> & Hy).
      apply list_elem_of_fmap. exists y. split; [done|].
      rewrite erase_first_elem by done. split; [done|]. intros Heq. apply Hi.
      by rewrite <- Heq. }
    exists s'. split; [done|]. split; [done|]. split; [done|]. split; [done|].
    intros x. rewrite Hm. simpl. rewrite erase_first_elem by done.
    rewrite elem_of_cons. naive_solver.
Qed.

(** C2 (amended).  On a well-formed state, [UpdateExtensionBlacklist]
    persists the set of the valid identifiers of the given list
    ([Extension::IdIsValid]), then unloads every record of the Enabled list
    whose identifier is in that set; the other enabled records stay, and the
    Disabled list is left unchanged, blacklisted identifiers included. *)
Theorem UpdateExtensionBlacklist_spec s blacklist :
  wf s →
  ∃ s', UpdateExtensionBlacklist s blacklist = Some s' ∧
    pref_blacklist (extension_prefs_ s') =
      list_to_set (filter (fun i => IdIsValid i = true) blacklist) ∧
    disabled_extensions_ s' = disabled_extensions_ s ∧
    (∀ x, x ∈ extensions_ s' ↔
          x ∈ extensions_ s ∧
          ext_id x ∉ (list_to_set (filter (fun i => IdIsValid i = true) blacklist)
                       : gset string)).
Proof.
  intros Hwf. unfold UpdateExtensionBlacklist.
  set (bset := list_to_set _ : gset string).
  set (s0 := set_prefs _ s).
  assert (Hwf0 : wf s0) by done.
  pose proof (wf_enabled_nodup s Hwf) as Hnde.
  destruct (unload_all_enabled (ext_id <$> filter (fun e => ext_id e ∈ bset) (extensions_ s0))
              s0 Hwf0) as (s' & Hu & _ & Hd & Hp & Hm).
  { eapply sublist_NoDup; [exact Hnde|]. apply fmap_sublist, sublist_filter. }
  { intros i (y & -> & Hy)%list_elem_of_fmap. apply list_elem_of_fmap.
    apply list_elem_of_filter in Hy. naive_solver. }
  exists s'. split; [done|]. split; [by rewrite Hp|]. split; [done|].
  intros x. rewrite Hm. simpl. split.
  - intros [Hx Hn]. split; [done|]. intros Hb. apply Hn.
    apply list_elem_of_fmap. exists x. split; [done|]. by apply list_elem_of_filter.
  - intros [Hx Hn]. split; [done|]. intros (y & Hxy & Hy)%list_elem_of_fmap.
    apply list_elem_of_filter in Hy as [Hyb _]. apply Hn. by rewrite Hxy.
Qed.

(** ** C7: the Enabled and Disabled lists stay disjoint *)











Section Loaders.
(** The extension loader generates lowercase identifiers. *)
Hypothesis InitFromValue_lowercase :
  ∀ p m b e, InitFromValue p m b = inr e → lowercase_id e.
Hypothesis LoadExtensionFromDisk_lowercase :
  ∀ p e, LoadExtensionFromDisk p = inr e → lowercase_id e.

Lemma LoadInstalled_wf s info w s' :
  wf s → LoadInstalledExtension s info w = Some s' → wf s'.
Proof.
  intros Hwf. unfold LoadInstalledExtension. cbv zeta.
  destruct (info_manifest info) as [m|] eqn:Hm; [|by intros [= <-]].
  destruct (InitFromValue _ m _) as [err|e0] eqn:HI; [by intros [= <-]|].
  apply InitFromValue_lowercase in HI.
  destruct (OnExtensionLoaded _ _ true) as [s1|] eqn:HL; [|discriminate].
  simpl. intros [= <-].
  assert (Hwf1 : wf s1).
  { eapply OnExtensionLoaded_wf; [| |exact HL]; [by destruct w|exact HI]. }
  by destruct (_ || _).
Qed.





End Loaders.


(** ** C8: unloading, then reloading from the remembered path *)

Lemma OnExtensionLoaded_fresh s e allow :
  load_gate s e = true → lowercase_id e →
  (∀ x, x ∈ registered s → ext_id x ≠ ext_id e) →
  OnExtensionLoaded s e allow =
    Some (place_loaded (set_unloaded (delete (ext_id e) (unloaded_extension_paths_ s)) s) e).
Proof.
  intros Hg He Hx. unfold OnExtensionLoaded. cbv zeta.
  change (load_gate (set_unloaded _ s) e) with (load_gate s e). rewrite Hg.
  rewrite Get_None_intro; [done|]. intros x Hin. rewrite He. by apply Hx.
Qed.

(** C8 (amended).  On a well-formed state, unloading a registered record
    [r] removes every record of its identifier and remembers its path under
    the identifier; reloading the identifier right afterwards, when the
    preferences hold no manifest for it and the path is not empty, posts
    exactly one load of that remembered path to the backend.  The backend
    loads it as an unpacked extension: when the bundle on disk yields a
    record [e'] with the same identifier, a pending entry (if any) agrees on
    the theme flag, and the stored state is not KILLBIT, running the posted
    result registers exactly one record of the identifier, namely [e'] with
    location [LOAD] (through [OnExtensionInstalled], not as the original
    record). *)
Theorem Unload_Reload_roundtrip s r :
  wf s → r ∈ registered s →
  (∀ info, GetInstalledExtensionInfo (extension_prefs_ s) (ext_id r) = Some info →
           info_manifest info = None) →
  ext_path r ≠ "" →
  ∃ s1, UnloadExtension s (ext_id r) = Some s1 ∧
    filter (fun x => ext_id x = ext_id r) (registered s1) = [] ∧
    unloaded_extension_paths_ s1 !! ext_id r = Some (ext_path r) ∧
    ReloadExtension s1 (ext_id r) =
      Some (add_log [PostFileTask (LoadSingleExtension (ext_path r))] s1) ∧
    (∀ e', LoadExtensionFromDisk (AbsolutePath (ext_path r)) = inr e' →
       ext_id e' = ext_id r →
       (∀ p, pending_extensions_ s !! ext_id r = Some p → is_theme p = ext_is_theme e') →
       GetExtensionState (extension_prefs_ s) (ext_id r) ≠ KILLBIT →
       ∃ s3, RunUITask (add_log [PostFileTask (LoadSingleExtension (ext_path r))] s1)
                       (Backend_LoadSingleExtension (ext_path r)) = Some s3 ∧
             filter (fun x => ext_id x = ext_id r) (registered s3) = [set_location LOAD e']).
Proof.
  intros Hwf Hr Hman Hpath.
  pose proof (wf_lowercase _ _ Hwf Hr) as Hlow.
  assert (HG : GetExtensionByIdInternal s (ext_id r) true true = Some r)
    by (by apply Get_registered).
  destruct (Unload_Some _ _ _ HG) as [s1 HU].
  pose proof (Unload_perm _ _ _ HU) as (r' & HG' & _ & Hunl & Hpref & Hpend & Hen).
  rewrite HG in HG'. injection HG' as <-.
  pose proof (Unload_wf _ _ _ Hwf HU) as Hwf1.
  assert (Hnone : ∀ x, x ∈ registered s1 → ext_id x ≠ ext_id r).
  { intros x Hx. rewrite (Unload_registered s _ s1 r x Hwf HU HG) in Hx. naive_solver. }
  exists s1. split; [done|]. split; [by apply filter_id_none|].
  split; [rewrite Hunl; apply lookup_insert_eq|]. split.
  - unfold ReloadExtension, GetExtensionById, GetExtensionByIdInternal. cbv beta iota.
    rewrite Hlow, find_by_id_None_intro.
    2:{ intros x Hx. apply Hnone. unfold registered. apply elem_of_app. by left. }
    rewrite Hunl, lookup_insert_eq. simpl. rewrite Hpref.
    destruct (GetInstalledExtensionInfo (extension_prefs_ s) (ext_id r)) as [info|] eqn:Hi.
    + rewrite (Hman info eq_refl). by rewrite bool_decide_eq_false_2.
    + by rewrite bool_decide_eq_false_2.
  - intros e' Hdisk Hid Hth Hk.
    unfold Backend_LoadSingleExtension. cbv zeta. rewrite Hdisk. simpl.
    set (s2 := add_log _ s1).
    set (e'' := set_location LOAD e').
    assert (Hid'' : ext_id e'' = ext_id r) by exact Hid.
    assert (Hlow'' : lowercase_id e'') by (unfold lowercase_id; rewrite Hid''; exact Hlow).
    unfold OnExtensionInstalled. cbv zeta.
    change (pending_extensions_ s2) with (pending_extensions_ s1).
    rewrite Hpend, Hid''.
    set (s3 := add_log _ (set_prefs _ s2)).
    assert (Hwf3 : wf s3) by exact Hwf1.
    assert (Hg3 : load_gate s3 e'' = true).
    { unfold load_gate. rewrite (bool_decide_eq_true_2 (ext_location e'' = LOAD)) by done.
      by rewrite orb_true_r. }
    rewrite (OnExtensionLoaded_fresh s3 e'' true); [| done | done |].
    2:{ intros x Hx. rewrite Hid''. by apply Hnone. }
    simpl.
    set (s4 := place_loaded _ e'').
    assert (Hk4 : GetExtensionState (extension_prefs_ (set_unloaded (delete (ext_id e'')
               (unloaded_extension_paths_ s3)) s3)) (ext_id e'') ≠ KILLBIT).
    { change (GetExtensionState (extension_prefs_ s1) (ext_id e') ≠ KILLBIT).
      rewrite Hpref, Hid. exact Hk. }
    assert (Hwf4 : wf s4).
    { apply place_loaded_wf; [exact Hwf3|exact Hlow''|].
      intros x Hx. rewrite Hid''. by apply Hnone. }
    assert (Hin4 : e'' ∈ registered s4) by (by apply place_loaded_elem).
    destruct (pending_extensions_ s !! ext_id r) as [p|] eqn:Hp.
    + rewrite (Hth p eq_refl), eqb_reflx. simpl.
      eexists. split; [done|]. rewrite <- Hid''.
      by apply filter_id_single; [apply Hwf4|].
    + eexists. split; [done|]. rewrite <- Hid''.
      by apply filter_id_single; [apply Hwf4|].
Qed.

(** * Further properties of the service *)

(** ** Helpers *)



Lemma Get_enabled_only s e :
  wf s → e ∈ extensions_ s →
  GetExtensionByIdInternal s (ext_id e) true false = Some e.
Proof.
  intros Hwf Hin. unfold GetExtensionByIdInternal. cbv zeta beta iota.
  rewrite (wf_lowercase s e Hwf) by (unfold registered; apply elem_of_app; by left).
  by rewrite find_by_id_elem; [|apply wf_enabled_nodup|].
Qed.


(** Disabling an enabled record, step by step. *)
Lemma Disable_enabled_eq s e :
  wf s → e ∈ extensions_ s →
  DisableExtension s (ext_id e) =
    add_log [UnregisterChromeURLOverrides (ext_id e); Notify EXTENSION_UNLOADED (ext_id e)]
      (set_extensions (erase_first e (extensions_ s))
        (set_disabled (app (disabled_extensions_ s) [e])
          (set_prefs (SetExtensionState (extension_prefs_ s) e DISABLED) s))).
Proof. intros Hwf Hin. unfold DisableExtension. by rewrite Get_enabled_only. Qed.

(** ** GetExtensionByIdInternal *)

(** On a well-formed state the lookup over both lists is case-insensitive
    and exact: it finds [e] exactly when [e] is registered and its
    identifier is the lowercased argument. *)
Theorem GetExtensionByIdInternal_spec s id e :
  wf s →
  GetExtensionByIdInternal s id true true = Some e ↔
    e ∈ registered s ∧ ext_id e = StringToLowerASCII id.
Proof.
  intros Hwf. split.
  - intros (Hid & H)%Get_Some. split; [|done].
    unfold registered. apply elem_of_app. naive_solver.
  - intros [Hin Hid]. pose proof (Get_registered s e Hwf Hin) as H.
    pose proof (wf_lowercase s e Hwf Hin) as Hlow.
    unfold GetExtensionByIdInternal in *. cbv zeta in *.
    rewrite Hlow in H. by rewrite <- Hid.
Qed.

(** ** EnableExtension and DisableExtension *)


(** Disabling an enabled record of a well-formed state appends it to the
    Disabled list, removes its identifier from the Enabled list, stores the
    state DISABLED, and unregisters its URL overrides before sending
    [EXTENSION_UNLOADED]. *)
Theorem DisableExtension_moves s e :
  wf s → e ∈ extensions_ s →
  let s' := DisableExtension s (ext_id e) in
  disabled_extensions_ s' = app (disabled_extensions_ s) [e] ∧
  (∀ x, x ∈ extensions_ s' ↔ x ∈ extensions_ s ∧ ext_id x ≠ ext_id e) ∧
  GetExtensionState (extension_prefs_ s') (ext_id e) = DISABLED ∧
  log_ s' = app (log_ s) [UnregisterChromeURLOverrides (ext_id e);
                          Notify EXTENSION_UNLOADED (ext_id e)].
Proof.
  intros Hwf Hin. cbv zeta. rewrite Disable_enabled_eq by done. simpl.
  split; [done|]. split.
  - intros x. apply erase_first_elem; [by apply wf_enabled_nodup|done].
  - split; [|done]. unfold GetExtensionState. simpl. by rewrite lookup_insert_eq.
Qed.


(** ** UnloadExtension and UninstallExtension *)

(** Unloading a registered record of a well-formed state remembers its path,
    removes every record of its identifier, and sends
    [EXTENSION_UNLOADED_DISABLED] for a disabled record and
    [EXTENSION_UNLOADED] for an enabled one, after unregistering its URL
    overrides. *)
Theorem UnloadExtension_notifies s e :
  wf s → e ∈ registered s →
  ∃ s', UnloadExtension s (ext_id e) = Some s' ∧
    unloaded_extension_paths_ s' !! ext_id e = Some (ext_path e) ∧
    (∀ x, x ∈ registered s' ↔ x ∈ registered s ∧ ext_id x ≠ ext_id e) ∧
    log_ s' = app (log_ s)
      [UnregisterChromeURLOverrides (ext_id e);
       Notify (if bool_decide (e ∈ disabled_extensions_ s)
               then EXTENSION_UNLOADED_DISABLED else EXTENSION_UNLOADED) (ext_id e)].
Proof.
  intros Hwf Hin. pose proof (Get_registered s e Hwf Hin) as HG.
  destruct (Unload_Some _ _ _ HG) as [s' HU]. exists s'. split; [done|].
  split; [|split].
  - apply Unload_perm in HU as (e' & HG' & _ & Hunl & _).
    rewrite HG in HG'. injection HG' as <-. rewrite Hunl. apply lookup_insert_eq.
  - intros x. exact (Unload_registered s _ s' e x Hwf HU HG).
  - unfold registered in Hin. apply elem_of_app in Hin as [Hin|Hin].
    + rewrite Unload_enabled in HU by done. injection HU as <-.
      rewrite bool_decide_eq_false_2; [simpl; by rewrite <- app_assoc|].
      intros Hd. by apply (wf_disjoint s e Hwf Hin e Hd).
    + rewrite Unload_disabled in HU by done. injection HU as <-.
      rewrite bool_decide_eq_true_2 by done. simpl. by rewrite <- app_assoc.
Qed.

(** Unloading or uninstalling an identifier no record carries fails: the
    [CHECK] in [UnloadExtension] and the dereference after the [DCHECK] in
    [UninstallExtension]. *)
Theorem Unload_Uninstall_unknown s id external_uninstall :
  (∀ r, r ∈ registered s → ext_id r ≠ StringToLowerASCII id) →
  UnloadExtension s id = None ∧ UninstallExtension s id external_uninstall = None.
Proof.
  intros H. unfold UnloadExtension, UninstallExtension. by rewrite Get_None_intro.
Qed.

(** ** The invariant on reachable states *)


(** ** Helpers on [OnExtensionLoaded] *)

Lemma Unload_log s id s' :
  UnloadExtension s id = Some s' → ∃ l, log_ s' = app (log_ s) l.
Proof.
  unfold UnloadExtension. intros H. repeat case_match; simplify_eq/=;
    eexists; rewrite <- ?app_assoc; reflexivity.
Qed.

Lemma OnExtensionLoaded_Some s e allow :
  wf s → ∃ s', OnExtensionLoaded s e allow = Some s'.
Proof.
  intros Hwf. unfold OnExtensionLoaded. cbv zeta.
  set (s0 := set_unloaded _ s).
  assert (Hwf0 : wf s0) by exact Hwf.
  destruct (load_gate s0 e); [|by eauto].
  destruct (GetExtensionByIdInternal s0 (ext_id e) true true) as [old|] eqn:HG; [|by eauto].
  destruct (CompareTo _ _); try by eauto.
  apply Get_Some in HG as [_ Hin].
  assert (Hr : old ∈ registered s0) by (unfold registered; apply elem_of_app; naive_solver).
  destruct (Unload_Some s0 (ext_id old) old (Get_registered s0 old Hwf0 Hr)) as [s1 ->].
  simpl. eauto.
Qed.

Lemma OnExtensionLoaded_keeps s e allow s' :
  OnExtensionLoaded s e allow = Some s' →
  pending_extensions_ s' = pending_extensions_ s ∧
  pref_installed (extension_prefs_ s') = pref_installed (extension_prefs_ s) ∧
  ∃ l, log_ s' = app (log_ s) l.
Proof.
  unfold OnExtensionLoaded. cbv zeta. intros H.
  destruct (load_gate _ e).
  2:{ injection H as <-. split; [done|]. split; [done|]. exists []. by rewrite app_nil_r. }
  destruct (GetExtensionByIdInternal _ (ext_id e) true true) as [old|].
  - destruct (CompareTo _ _).
    + injection H as <-. simpl. split; [done|]. split; [done|].
      eexists. rewrite <- ?app_assoc; reflexivity.
    + injection H as <-. simpl. split; [done|]. split; [done|].
      eexists. rewrite <- ?app_assoc; reflexivity.
    + destruct (UnloadExtension _ (ext_id old)) as [s1|] eqn:HU; [|done].
      simpl in H. injection H as <-.
      pose proof (Unload_perm _ _ _ HU) as (_ & _ & _ & _ & Hpre & Hpen & _).
      destruct (Unload_log _ _ _ HU) as [l Hl].
      remember (if allow || negb (IsPrivilegeIncrease old e) then s1
                else set_prefs (SetDidExtensionEscalatePermissions
                                  (SetExtensionState (extension_prefs_ s1) e DISABLED) e true) s1)
        as s2 eqn:Hs2def.
      assert (Hs2 : pending_extensions_ s2 = pending_extensions_ s1 ∧
                    pref_installed (extension_prefs_ s2) = pref_installed (extension_prefs_ s1) ∧
                    log_ s2 = log_ s1) by (subst s2; by destruct (_ || _)).
      destruct Hs2 as (Hp2 & Hi2 & Hl2).
      pose proof (place_loaded_fields s2 e) as (Hpf & _ & Hpp & _).
      split; [by rewrite Hpp, Hp2, Hpen|]. split; [by rewrite Hpf, Hi2, Hpre|].
      unfold place_loaded. simpl in Hl. rewrite Hl in Hl2.
      repeat case_match; simpl; rewrite Hl2; eexists; rewrite <- ?app_assoc; reflexivity.
  - injection H as <-. pose proof (place_loaded_fields (set_unloaded
      (delete (ext_id e) (unloaded_extension_paths_ s)) s) e) as (Hpf & _ & Hpp & _).
    split; [by rewrite Hpp|]. split; [by rewrite Hpf|].
    unfold place_loaded. repeat case_match; simpl; eexists; rewrite <- ?app_assoc; reflexivity.
Qed.




Lemma Get_None_intro_enabled s id :
  (∀ r, r ∈ extensions_ s → ext_id r ≠ StringToLowerASCII id) →
  GetExtensionByIdInternal s id true false = None.
Proof.
  intros H. unfold GetExtensionByIdInternal. cbv zeta.
  by rewrite find_by_id_None_intro.
Qed.

(** ** UninstallExtension *)

Lemma Uninstall_registered_eq s e external_uninstall :
  wf s → e ∈ registered s →
  ∃ s', UninstallExtension s (ext_id e) external_uninstall = Some s' ∧
    (∀ x, x ∈ registered s' ↔ x ∈ registered s ∧ ext_id x ≠ ext_id e) ∧
    GetInstalledExtensionInfo (extension_prefs_ s') (ext_id e) = None ∧
    pref_uninstalled (extension_prefs_ s') =
      app (pref_uninstalled (extension_prefs_ s)) [(ext_id e, ext_location e, external_uninstall)] ∧
    log_ s' = app (log_ s)
      (app [UnregisterChromeURLOverrides (ext_id e);
            Notify (if bool_decide (e ∈ disabled_extensions_ s)
                    then EXTENSION_UNLOADED_DISABLED else EXTENSION_UNLOADED) (ext_id e)]
        (app (if bool_decide (ext_location e = LOAD) then []
              else [PostFileTask (UninstallExtensionFiles (ext_id e))])
             [ClearExtensionData (ext_id e)])).
Proof.
  intros Hwf Hin. pose proof (Get_registered s e Hwf Hin) as HG.
  destruct (Unload_Some _ _ _ HG) as [s1 HU].
  pose proof (fun x => Unload_registered s _ s1 e x Hwf HU HG) as Hreg.
  pose proof (Unload_perm _ _ _ HU) as (e' & HG' & _ & _ & Hpre & _).
  rewrite HG in HG'. injection HG' as <-.
  assert (Hlog : log_ s1 = app (log_ s)
            [UnregisterChromeURLOverrides (ext_id e);
             Notify (if bool_decide (e ∈ disabled_extensions_ s)
                     then EXTENSION_UNLOADED_DISABLED else EXTENSION_UNLOADED) (ext_id e)]).
  { unfold registered in Hin. apply elem_of_app in Hin as [Hin|Hin].
    - rewrite Unload_enabled in HU by done. injection HU as <-.
      rewrite bool_decide_eq_false_2; [simpl; by rewrite <- app_assoc|].
      intros Hd. by apply (wf_disjoint s e Hwf Hin e Hd).
    - rewrite Unload_disabled in HU by done. injection HU as <-.
      rewrite bool_decide_eq_true_2 by done. simpl. by rewrite <- app_assoc. }
  unfold UninstallExtension. rewrite HG, HU. simpl. eexists. split; [done|].
  split; [|split; [|split]].
  - intros x. rewrite <- Hreg.
    by destruct (bool_decide (ext_location e = LOAD)).
  - destruct (bool_decide (ext_location e = LOAD)); simpl;
      unfold GetInstalledExtensionInfo; simpl; apply lookup_delete_eq.
  - destruct (bool_decide (ext_location e = LOAD)); simpl; by rewrite Hpre.
  - destruct (bool_decide (ext_location e = LOAD)); simpl; rewrite Hlog;
      by rewrite <- !app_assoc.
Qed.

(** Uninstalling a registered record of a well-formed state removes every
    record of its identifier, drops its install info and records the
    uninstall (identifier, location, external flag) in the preferences,
    deletes its files unless it was loaded unpacked ([LOAD]), and clears
    its data as the last effect. *)
Theorem UninstallExtension_registered s e external_uninstall :
  wf s → e ∈ registered s →
  ∃ s', UninstallExtension s (ext_id e) external_uninstall = Some s' ∧
    (∀ x, x ∈ registered s' ↔ x ∈ registered s ∧ ext_id x ≠ ext_id e) ∧
    GetInstalledExtensionInfo (extension_prefs_ s') (ext_id e) = None ∧
    pref_uninstalled (extension_prefs_ s') =
      app (pref_uninstalled (extension_prefs_ s)) [(ext_id e, ext_location e, external_uninstall)] ∧
    log_ s' = app (log_ s)
      (app [UnregisterChromeURLOverrides (ext_id e);
            Notify (if bool_decide (e ∈ disabled_extensions_ s)
                    then EXTENSION_UNLOADED_DISABLED else EXTENSION_UNLOADED) (ext_id e)]
        (app (if bool_decide (ext_location e = LOAD) then []
              else [PostFileTask (UninstallExtensionFiles (ext_id e))])
             [ClearExtensionData (ext_id e)])).
Proof. exact (Uninstall_registered_eq s e external_uninstall). Qed.

(** ** AddPendingExtension *)

(** [AddPendingExtension] leaves the service unchanged when a record of the
    identifier is registered; otherwise it stores the pending entry under
    the identifier, keeps every other pending entry, and changes nothing
    else (no effect is logged). *)
Theorem AddPendingExtension_spec s id url v theme silently :
  ((∃ r, r ∈ registered s ∧ ext_id r = StringToLowerASCII id) →
     AddPendingExtension s id url v theme silently = s) ∧
  ((∀ r, r ∈ registered s → ext_id r ≠ StringToLowerASCII id) →
     let s' := AddPendingExtension s id url v theme silently in
     pending_extensions_ s' !! id =
       Some {| update_url := url; pending_version := v;
               is_theme := theme; install_silently := silently |} ∧
     (∀ id', id' ≠ id → pending_extensions_ s' !! id' = pending_extensions_ s !! id') ∧
     extensions_ s' = extensions_ s ∧ disabled_extensions_ s' = disabled_extensions_ s ∧
     extension_prefs_ s' = extension_prefs_ s ∧ log_ s' = log_ s).
Proof.
  split.
  - intros (r & Hin & Hid). unfold AddPendingExtension.
    destruct (GetExtensionByIdInternal s id true true) eqn:HG; [done|].
    exfalso. by apply (Get_None s id r HG Hin).
  - intros H. cbv zeta. unfold AddPendingExtension. rewrite Get_None_intro by done.
    simpl. split; [apply lookup_insert_eq|]. split; [|done].
    intros id' Hne. by apply lookup_insert_ne.
Qed.

(** ** OnExtensionInstalled *)

(** When no pending entry disagrees with the record on the theme flag, an
    installation on a well-formed state succeeds: the pending entry of the
    identifier (if any) is removed, the install info (identifier, path,
    location, manifest) is persisted, and the first effect is the
    [THEME_INSTALLED] or [EXTENSION_INSTALLED] notification. *)
Theorem OnExtensionInstalled_success s e allow :
  wf s →
  (∀ p, pending_extensions_ s !! ext_id e = Some p → is_theme p = ext_is_theme e) →
  ∃ s', OnExtensionInstalled s e allow = Some s' ∧
    pending_extensions_ s' = delete (ext_id e) (pending_extensions_ s) ∧
    GetInstalledExtensionInfo (extension_prefs_ s') (ext_id e) =
      Some {| info_id := ext_id e; info_path := ext_path e;
              info_location := ext_location e; info_manifest := Some (manifest_value e) |} ∧
    ∃ l, log_ s' = app (log_ s)
      (Notify (if ext_is_theme e then THEME_INSTALLED else EXTENSION_INSTALLED) (ext_id e) :: l).
Proof.
  intros Hwf Hp. unfold OnExtensionInstalled. cbv zeta.
  set (s0 := add_log _ (set_prefs (PrefsOnExtensionInstalled (extension_prefs_ s) e) s)).
  assert (Hwf0 : wf s0) by exact Hwf.
  destruct (OnExtensionLoaded_Some s0 e allow Hwf0) as [s1 HL].
  pose proof (OnExtensionLoaded_keeps _ _ _ _ HL) as (Hpen & Hinst & l & Hl).
  assert (Hg : match pending_extensions_ s !! ext_id e with
               | Some p => negb (Bool.eqb (is_theme p) (ext_is_theme e))
               | None => false end = false).
  { destruct (pending_extensions_ s !! ext_id e) as [p|]; [|done].
    rewrite (Hp p eq_refl). by destruct (ext_is_theme e). }
  rewrite Hg, HL. simpl.
  destruct (pending_extensions_ s !! ext_id e) as [p|] eqn:Hpe.
  - eexists. split; [done|]. split; [by rewrite Hpen|]. split.
    + unfold GetInstalledExtensionInfo. simpl. rewrite Hinst. simpl. apply lookup_insert_eq.
    + exists l. simpl. rewrite Hl. simpl. by rewrite <- app_assoc.
  - eexists. split; [done|]. split.
    { rewrite Hpen. simpl. by rewrite delete_id. }
    split.
    + unfold GetInstalledExtensionInfo. rewrite Hinst. simpl. apply lookup_insert_eq.
    + exists l. rewrite Hl. simpl. by rewrite <- app_assoc.
Qed.

(** ** OnExtensionLoaded of a new identifier *)


(** ** LoadInstalledExtension *)


(** ** ReloadExtension *)

(** Reloading an identifier with no enabled record, no remembered path and
    no install info fails the [CHECK] on the empty path. *)
Theorem ReloadExtension_unknown s id :
  (∀ r, r ∈ extensions_ s → ext_id r ≠ StringToLowerASCII id) →
  unloaded_extension_paths_ s !! id = None →
  GetInstalledExtensionInfo (extension_prefs_ s) id = None →
  ReloadExtension s id = None.
Proof.
  intros Hen Hun Hinfo. unfold ReloadExtension, GetExtensionById.
  rewrite (Get_None_intro_enabled s id Hen).
  simpl. rewrite Hun. simpl. by rewrite Hinfo.
Qed.

(** Reloading an enabled record of a well-formed state whose preferences
    hold no manifest for it unloads it and asks the backend to load its
    path as an unpacked extension, nothing more. *)
Theorem ReloadExtension_enabled_unpacked s e :
  wf s → e ∈ extensions_ s →
  (∀ info, GetInstalledExtensionInfo (extension_prefs_ s) (ext_id e) = Some info →
           info_manifest info = None) →
  ext_path e ≠ "" →
  ∃ s1, UnloadExtension s (ext_id e) = Some s1 ∧
    ReloadExtension s (ext_id e) = Some (add_log [PostFileTask (LoadSingleExtension (ext_path e))] s1).
Proof.
  intros Hwf Hin Hinfo Hpath.
  assert (HG : GetExtensionById s (ext_id e) false = Some e)
    by (unfold GetExtensionById; by apply Get_enabled_only).
  assert (HGr : GetExtensionByIdInternal s (ext_id e) true true = Some e)
    by (apply Get_registered; [done|unfold registered; apply elem_of_app; by left]).
  destruct (Unload_Some _ _ _ HGr) as [s1 HU]. exists s1. split; [done|].
  pose proof (Unload_perm _ _ _ HU) as (e' & _ & _ & _ & Hpre & _).
  unfold ReloadExtension. rewrite HG, HU. simpl. rewrite Hpre.
  rewrite bool_decide_eq_false_2 by done.
  destruct (GetInstalledExtensionInfo (extension_prefs_ s) (ext_id e)) as [info|] eqn:Hi;
    [|done].
  by rewrite (Hinfo info eq_refl).
Qed.

(** ** OnExternalExtensionFound *)

(** An external provider's extension whose identifier no record carries is
    installed silently from the given path, expecting the identifier,
    allowing a privilege increase, keeping the source file and recording the
    location as the install source; when a record exists and the version
    string does not parse, the dereference of the missing version fails. *)
Theorem OnExternalExtensionFound_new_or_bad_version s id vstr path location :
  ((∀ r, r ∈ registered s → ext_id r ≠ StringToLowerASCII id) →
     OnExternalExtensionFound s id vstr path location =
       Some (add_log [InstallCrx {| crx_path := path; crx_expected_id := Some id;
                                   crx_allow_privilege_increase := true; crx_silent := true;
                                   crx_delete_source := false;
                                   crx_install_source := Some location;
                                   crx_original_url := None;
                                   crx_force_web_origin_to_download_url := false |}] s)) ∧
  ((∃ r, r ∈ registered s ∧ ext_id r = StringToLowerASCII id) →
     GetVersionFromString vstr = None →
     OnExternalExtensionFound s id vstr path location = None).
Proof.
  split.
  - intros H. unfold OnExternalExtensionFound, GetExtensionById. by rewrite Get_None_intro.
  - intros (r & Hin & Hid) Hv. unfold OnExternalExtensionFound, GetExtensionById.
    destruct (GetExtensionByIdInternal s id true true) eqn:HG.
    + by rewrite Hv.
    + exfalso. by apply (Get_None s id r HG Hin).
Qed.

(** ** Startup loading *)

(** [JSONStringValueSerializer::Deserialize] of a component manifest, and
    [extension_l10n_util::ShouldRelocalizeManifest]: collaborators outside
    the source. *)
Variable Deserialize : string -> option Manifest.
Variable ShouldRelocalizeManifest : ExtensionInfo -> bool.

(** An entry of [component_extension_manifests_]. *)
Record ComponentExtensionInfo := {
  component_manifest : string;
  component_root_directory : string
}.

(** [ExtensionsService::LoadComponentExtensions], over the registered
    component extensions.  A manifest that does not parse is skipped; a
    manifest that does not initialize stops the loop ([return]). *)
Fixpoint LoadComponentExtensions (s : Service)
    (component_extension_manifests : list ComponentExtensionInfo) : option Service :=
  match component_extension_manifests with
  | [] => Some s
  | it :: rest =>
      match Deserialize (component_manifest it) with
      | None =>
          LoadComponentExtensions
            (add_log [NotReached "Failed to retrieve manifest for extension"] s) rest
      | Some manifest =>
          match InitFromValue (component_root_directory it) manifest true with
          | inl _ => Some (add_log [NotReached ""] s)
          | inr e =>
              s1 ← OnExtensionLoaded s (set_location COMPONENT e) false;
              LoadComponentExtensions s1 rest
          end
      end
  end.

(** [ShouldReloadExtensionManifest]. *)
Definition ShouldReloadExtensionManifest (info : ExtensionInfo) : bool :=
  bool_decide (info_location info = LOAD) || ShouldRelocalizeManifest info.

(** One iteration of [ExtensionsServiceBackend::ReloadExtensionManifests]:
    the manifest is replaced by the one freshly loaded from disk, if any. *)
Definition ReloadExtensionManifest (info : ExtensionInfo) : ExtensionInfo :=
  if ShouldReloadExtensionManifest info then
    match LoadExtensionFromDisk (info_path info) with
    | inr extension =>
        {| info_id := info_id info; info_path := info_path info;
           info_location := info_location info;
           info_manifest := Some (manifest_value extension) |}
    | inl _ => info
    end
  else info.

(** [ExtensionsServiceBackend::ReloadExtensionManifests]: the list, updated
    in place, that it hands to [ContinueLoadAllExtensions]. *)
Definition Backend_ReloadExtensionManifests (extensions_to_reload : list ExtensionInfo)
    : list ExtensionInfo :=
  ReloadExtensionManifest <$> extensions_to_reload.

(** The loop of [ExtensionsService::ContinueLoadAllExtensions] (the
    histograms that follow only read the lists; [OnLoadedInstalledExtensions]
    is not modelled). *)
Fixpoint ContinueLoadAllExtensions (s : Service) (info : list ExtensionInfo)
    (write_to_prefs : bool) : option Service :=
  match info with
  | [] => Some s
  | i :: rest =>
      s1 ← LoadInstalledExtension s i write_to_prefs;
      ContinueLoadAllExtensions s1 rest write_to_prefs
  end.

(** [ExtensionsService::LoadAllExtensions], given the component extensions
    and the installed infos [GetInstalledExtensionsInfo] returns; the task
    posted to the backend is run right away. *)
Definition LoadAllExtensions (s : Service)
    (component_extension_manifests : list ComponentExtensionInfo)
    (info : list ExtensionInfo) : option Service :=
  s1 ← LoadComponentExtensions s component_extension_manifests;
  if existsb ShouldReloadExtensionManifest info then
    ContinueLoadAllExtensions s1 (Backend_ReloadExtensionManifests info) true
  else ContinueLoadAllExtensions s1 info false.

(** ** External uninstall check *)

(** [ExtensionsServiceBackend::external_extension_providers_]: each
    provider's [RegisteredVersion], by location (a [std::map]: the first
    entry of a location is its provider). *)
Definition ProviderMap : Type := list (Location * (string -> option version)).

Fixpoint provider_find (m : ProviderMap) (location : Location)
    : option (string -> option version) :=
  match m with
  | [] => None
  | (l, p) :: rest => if bool_decide (l = location) then Some p else provider_find rest location
  end.

(** What the backend does: reach [NOTREACHED], or post
    [ExtensionsService::UninstallExtension(id, external_uninstall)] to the
    UI thread. *)
Inductive BackendEffect :=
  | BE_NotReached (msg : string)
  | BE_PostUninstallExtension (id : string) (external_uninstall : bool).

(** [ExtensionsServiceBackend::CheckExternalUninstall]. *)
Definition Backend_CheckExternalUninstall (providers : ProviderMap) (id : string)
    (location : Location) : list BackendEffect :=
  match provider_find providers location with
  | None => [BE_NotReached "CheckExternalUninstall called for non-external extension"]
  | Some registered_version =>
      match registered_version id with
      | Some _ => []
      | None => [BE_PostUninstallExtension id true]
      end
  end.

(** Running a backend effect on the UI thread. *)
Definition RunBackendEffect (s : Service) (b : BackendEffect) : option Service :=
  match b with
  | BE_NotReached msg => Some s
  | BE_PostUninstallExtension id external_uninstall =>
      UninstallExtension s id external_uninstall
  end.

(** Running the backend's effects on the UI thread, in order. *)
Fixpoint RunBackendEffects (s : Service) (l : list BackendEffect) : option Service :=
  match l with
  | [] => Some s
  | b :: rest => s1 ← RunBackendEffect s b; RunBackendEffects s1 rest
  end.

(** ** Helpers on the loading paths *)

Lemma place_loaded_sub s e x :
  x ∈ registered (place_loaded s e) → x ∈ registered s ∨ x = e.
Proof.
  destruct (decide (GetExtensionState (extension_prefs_ s) (ext_id e) = KILLBIT)) as [Hk|Hk].
  - rewrite place_loaded_killbit by done. by left.
  - rewrite (place_loaded_perm s e Hk). intros [->|?]%elem_of_cons; [by right|by left].
Qed.

Lemma OnExtensionLoaded_sub s e allow s' x :
  OnExtensionLoaded s e allow = Some s' → x ∈ registered s' → x ∈ registered s ∨ x = e.
Proof.
  unfold OnExtensionLoaded. cbv zeta. intros H.
  destruct (load_gate _ e); [|injection H as <-; by left].
  destruct (GetExtensionByIdInternal _ (ext_id e) true true) as [old|].
  - destruct (CompareTo _ _); try (injection H as <-; by left).
    destruct (UnloadExtension _ (ext_id old)) as [s1|] eqn:HU; [|done].
    simpl in H. injection H as <-. intros Hx.
    apply place_loaded_sub in Hx as [Hx|Hx]; [|by right]. left.
    pose proof (Unload_perm _ _ _ HU) as (e' & _ & Hp & _).
    assert (Hx1 : x ∈ registered s1) by (by destruct (_ || _)).
    change (x ∈ registered s). rewrite Hp. by right.
  - injection H as <-. intros Hx. by apply place_loaded_sub in Hx.
Qed.

Lemma OnExtensionLoaded_enabled_flag s e allow s' :
  OnExtensionLoaded s e allow = Some s' → extensions_enabled_ s' = extensions_enabled_ s.
Proof.
  unfold OnExtensionLoaded. cbv zeta. intros H.
  destruct (load_gate _ e); [|by injection H as <-].
  destruct (GetExtensionByIdInternal _ (ext_id e) true true) as [old|].
  - destruct (CompareTo _ _); try (by injection H as <-).
    destruct (UnloadExtension _ (ext_id old)) as [s1|] eqn:HU; [|done].
    simpl in H. injection H as <-.
    pose proof (Unload_perm _ _ _ HU) as (e' & _ & _ & _ & _ & _ & Hen).
    rewrite (proj2 (proj2 (proj2 (place_loaded_fields _ e)))).
    by destruct (_ || _).
  - injection H as <-. by rewrite (proj2 (proj2 (proj2 (place_loaded_fields _ e)))).
Qed.

Lemma OnExtensionLoaded_gate_false s e allow :
  load_gate s e = false →
  OnExtensionLoaded s e allow =
    Some (set_unloaded (delete (ext_id e) (unloaded_extension_paths_ s)) s).
Proof.
  intros Hg. unfold OnExtensionLoaded. cbv zeta.
  change (load_gate (set_unloaded _ s) e) with (load_gate s e). by rewrite Hg.
Qed.

Lemma LoadInstalled_sub s info w s' x :
  LoadInstalledExtension s info w = Some s' → x ∈ registered s' →
  x ∈ registered s ∨ ext_location x = info_location info.
Proof.
  unfold LoadInstalledExtension. intros H.
  destruct (match info_manifest info with Some m => _ | None => _ end) as [err|e0].
  - injection H as <-. by left.
  - cbv zeta in H.
    destruct (OnExtensionLoaded _ _ true) as [s1|] eqn:HL; [|done]. simpl in H.
    assert (Hr : registered s' = registered s1) by (injection H as <-; by destruct (_ || _)).
    rewrite Hr. intros Hx. apply (OnExtensionLoaded_sub _ _ _ _ x HL) in Hx as [Hx|Hx].
    + left. by destruct w.
    + right. by subst x.
Qed.

Lemma LoadInstalled_Some s info w : wf s → ∃ s', LoadInstalledExtension s info w = Some s'.
Proof.
  intros Hwf. unfold LoadInstalledExtension.
  destruct (match info_manifest info with Some m => _ | None => _ end) as [err|e0]; [by eauto|].
  cbv zeta.
  destruct (OnExtensionLoaded_Some (if w then set_prefs (UpdateManifest (extension_prefs_ s)
              (set_location (info_location info) e0)) s else s)
              (set_location (info_location info) e0) true) as [s1 HL]; [by destruct w|].
  rewrite HL. simpl. eauto.
Qed.

Section LoadAll.
Hypothesis InitFromValue_lowercase :
  ∀ p m b e, InitFromValue p m b = inr e → lowercase_id e.

Lemma LoadComponent_sub comps s :
  wf s → ∃ s', LoadComponentExtensions s comps = Some s' ∧ wf s' ∧
    ∀ x, x ∈ registered s' → x ∈ registered s ∨ ext_location x = COMPONENT.
Proof.
  revert s. induction comps as [|c comps IH]; intros s Hwf; simpl.
  - eexists. split; [done|]. split; [done|]. by left.
  - destruct (Deserialize (component_manifest c)) as [m|].
    + destruct (InitFromValue (component_root_directory c) m true) as [err|e] eqn:Hi.
      * eexists. split; [done|]. split; [exact Hwf|]. by left.
      * destruct (OnExtensionLoaded_Some s (set_location COMPONENT e) false Hwf) as [s1 HL].
        rewrite HL. simpl.
        assert (Hwf1 : wf s1).
        { eapply OnExtensionLoaded_wf; [exact Hwf| |exact HL].
          exact (InitFromValue_lowercase _ _ _ _ Hi). }
        destruct (IH s1 Hwf1) as (s2 & H2 & Hwf2 & Hsub). exists s2.
        split; [done|]. split; [done|]. intros x Hx.
        apply Hsub in Hx as [Hx|Hx]; [|by right].
        apply (OnExtensionLoaded_sub _ _ _ _ x HL) in Hx as [Hx|Hx]; [by left|right; by subst x].
    + destruct (IH (add_log [NotReached "Failed to retrieve manifest for extension"] s) Hwf)
        as (s2 & H2 & Hwf2 & Hsub).
      exists s2. split; [done|]. split; [done|]. exact Hsub.
Qed.

Lemma ContinueLoadAll_sub infos w s :
  wf s → ∃ s', ContinueLoadAllExtensions s infos w = Some s' ∧ wf s' ∧
    ∀ x, x ∈ registered s' →
      x ∈ registered s ∨ ∃ info, info ∈ infos ∧ ext_location x = info_location info.
Proof.
  revert s. induction infos as [|i infos IH]; intros s Hwf; simpl.
  - eexists. split; [done|]. split; [done|]. by left.
  - destruct (LoadInstalled_Some s i w Hwf) as [s1 HL]. rewrite HL. simpl.
    assert (Hwf1 : wf s1).
    { exact (LoadInstalled_wf InitFromValue_lowercase s i w s1 Hwf HL). }
    destruct (IH s1 Hwf1) as (s2 & H2 & Hwf2 & Hsub). exists s2.
    split; [done|]. split; [done|]. intros x Hx.
    apply Hsub in Hx as [Hx|(info & Hin & Hl)].
    + apply (LoadInstalled_sub _ _ _ _ x HL) in Hx as [Hx|Hx]; [by left|].
      right. exists i. split; [by left|done].
    + right. exists info. split; [by right|done].
Qed.
End LoadAll.

(** ** LoadComponentExtensions *)

(** A component whose manifest parses but does not initialize a record
    stops the loading of the component extensions: the components after it
    are never looked at. *)
Theorem LoadComponentExtensions_stops s l1 c l2 m err :
  Deserialize (component_manifest c) = Some m →
  InitFromValue (component_root_directory c) m true = inl err →
  LoadComponentExtensions s (app l1 (c :: l2)) = LoadComponentExtensions s (app l1 [c]).
Proof.
  intros Hd Hi. revert s. induction l1 as [|c' l1 IH]; intros s; simpl.
  - by rewrite Hd, Hi.
  - destruct (Deserialize (component_manifest c')) as [m'|]; [|apply IH].
    destruct (InitFromValue (component_root_directory c') m' true); [done|].
    destruct (OnExtensionLoaded _ _ false); simpl; [apply IH|done].
Qed.

(** Provided the loader produces lowercase identifiers, loading the
    component extensions on a well-formed state always succeeds, keeps it
    well-formed, and every record it adds has location [COMPONENT]. *)
Theorem LoadComponentExtensions_registers
    (HInit : ∀ p m b e, InitFromValue p m b = inr e → lowercase_id e)
    s component_extension_manifests :
  wf s →
  ∃ s', LoadComponentExtensions s component_extension_manifests = Some s' ∧ wf s' ∧
    ∀ x, x ∈ registered s' → x ∈ registered s ∨ ext_location x = COMPONENT.
Proof. intros Hwf. by apply LoadComponent_sub. Qed.

(** While extensions are disabled, loading the component extensions on a
    well-formed state (with a loader that produces lowercase identifiers)
    succeeds, and the only records it registers are component themes: a
    component extension that is not a theme is dropped. *)
Theorem LoadComponentExtensions_extensions_disabled
    (HInit : ∀ p m b e, InitFromValue p m b = inr e → lowercase_id e)
    s component_extension_manifests :
  wf s → extensions_enabled_ s = false →
  ∃ s', LoadComponentExtensions s component_extension_manifests = Some s' ∧
    ∀ x, x ∈ registered s' →
      x ∈ registered s ∨ (ext_location x = COMPONENT ∧ ext_is_theme x = true).
Proof.
  revert s. induction component_extension_manifests as [|c l IH];
    intros s Hwf Hen; simpl; [eexists; split; [done|]; by left|].
  destruct (Deserialize (component_manifest c)) as [m|].
  2:{ exact (IH (add_log [NotReached "Failed to retrieve manifest for extension"] s) Hwf Hen). }
  destruct (InitFromValue (component_root_directory c) m true) as [err|e] eqn:Hi.
  { eexists. split; [done|]. by left. }
  destruct (OnExtensionLoaded_Some s (set_location COMPONENT e) false Hwf) as [s1 HL].
  rewrite HL. simpl.
  assert (Hwf1 : wf s1).
  { eapply OnExtensionLoaded_wf; [exact Hwf| |exact HL]. exact (HInit _ _ _ _ Hi). }
  assert (Hen1 : extensions_enabled_ s1 = false)
    by (rewrite (OnExtensionLoaded_enabled_flag _ _ _ _ HL); exact Hen).
  destruct (IH s1 Hwf1 Hen1) as (s2 & H2 & Hsub). exists s2. split; [done|].
  intros x Hx. apply Hsub in Hx as [Hx|Hx]; [|by right].
  pose proof Hx as Hx1.
  apply (OnExtensionLoaded_sub _ _ _ _ x HL) in Hx as [Hx|Hx]; [by left|subst x].
  destruct (ext_is_theme e) eqn:Ht; [by right|].
  rewrite OnExtensionLoaded_gate_false in HL.
  2:{ unfold load_gate. simpl. by rewrite Hen, Ht. }
  injection HL as <-. left. exact Hx1.
Qed.

(** ** LoadAllExtensions *)

(** Provided the loader produces lowercase identifiers, loading all
    extensions at startup on a well-formed state always succeeds and keeps
    it well-formed, and every record it adds is a component extension or
    carries the location of one of the installed infos. *)
Theorem LoadAllExtensions_registers
    (HInit : ∀ p m b e, InitFromValue p m b = inr e → lowercase_id e)
    s component_extension_manifests info :
  wf s →
  ∃ s', LoadAllExtensions s component_extension_manifests info = Some s' ∧ wf s' ∧
    ∀ x, x ∈ registered s' →
      x ∈ registered s ∨ ext_location x = COMPONENT ∨
      ∃ i, i ∈ info ∧ ext_location x = info_location i.
Proof.
  intros Hwf. unfold LoadAllExtensions.
  destruct (LoadComponent_sub HInit component_extension_manifests s Hwf)
    as (s1 & H1 & Hwf1 & Hsub1).
  rewrite H1. simpl.
  destruct (existsb ShouldReloadExtensionManifest info).
  - destruct (ContinueLoadAll_sub HInit (Backend_ReloadExtensionManifests info) true s1 Hwf1)
      as (s2 & H2 & Hwf2 & Hsub2).
    exists s2. split; [done|]. split; [done|]. intros x Hx.
    apply Hsub2 in Hx as [Hx|(i' & Hin & Hl)].
    + apply Hsub1 in Hx as [Hx|Hx]; [by left|by right; left].
    + right; right. unfold Backend_ReloadExtensionManifests in Hin.
      apply list_elem_of_fmap in Hin as (i & -> & Hin).
      exists i. split; [done|]. rewrite Hl. unfold ReloadExtensionManifest.
      destruct (ShouldReloadExtensionManifest i); [|done].
      by destruct (LoadExtensionFromDisk (info_path i)).
  - destruct (ContinueLoadAll_sub HInit info false s1 Hwf1) as (s2 & H2 & Hwf2 & Hsub2).
    exists s2. split; [done|]. split; [done|]. intros x Hx.
    apply Hsub2 in Hx as [Hx|Hx]; [|by right; right].
    apply Hsub1 in Hx as [Hx|Hx]; [by left|by right; left].
Qed.

(** ** CheckExternalUninstall *)

(** On a well-formed state, when the provider of a registered record's
    location no longer registers its identifier, running what the backend
    posts uninstalls the record as an external uninstall: every record of
    the identifier is gone and the uninstall is recorded with the external
    flag set. *)
Theorem Backend_CheckExternalUninstall_run s e providers registered_version :
  wf s → e ∈ registered s →
  provider_find providers (ext_location e) = Some registered_version →
  registered_version (ext_id e) = None →
  ∃ s', RunBackendEffects s (Backend_CheckExternalUninstall providers (ext_id e)
                                                          (ext_location e)) = Some s' ∧
    (∀ x, x ∈ registered s' ↔ x ∈ registered s ∧ ext_id x ≠ ext_id e) ∧
    pref_uninstalled (extension_prefs_ s') =
      app (pref_uninstalled (extension_prefs_ s)) [(ext_id e, ext_location e, true)].
Proof.
  intros Hwf Hin Hp Hv. unfold Backend_CheckExternalUninstall. rewrite Hp, Hv. simpl.
  destruct (Uninstall_registered_eq s e true Hwf Hin) as (s' & HU & Hreg & _ & Hun & _).
  rewrite HU. simpl. by exists s'.
Qed.

End ExtensionsService.

(** * A concrete service

    Versions are natural numbers compared by [Nat.compare], manifests carry
    no data, no permission set is an escalation, every identifier is valid,
    persisted manifests never parse, and the disk holds one unpacked bundle
    at ["/ext/a"]. *)
Module Demo.

Definition cmp : nat → nat → comparison := Nat.compare.

Definition parse (v : string) : option nat :=
  if String.eqb v "1" then Some 1
  else if String.eqb v "2" then Some 2
  else if String.eqb v "3" then Some 3
  else None.

Definition mk (id : string) (v : nat) (path : string) (loc : Location) (theme : bool)
    : @Extension nat :=
  {| ext_id := id; ext_version := v; ext_path := path; ext_location := loc;
     ext_is_theme := theme; ext_api_permissions := [] |}.

Definition incr (_ _ : @Extension nat) : bool := false.
Definition valid (_ : string) : bool := true.
Definition init (_ : string) (_ : unit) (_ : bool) : string + @Extension nat :=
  inl "Manifest is invalid.".
Definition mval (_ : @Extension nat) : unit := tt.
Definition abs (p : string) : string := p.
Definition disk (p : string) : string + @Extension nat :=
  if String.eqb p "/ext/a" then inr (mk "aaaa" 1 "/ext/a" INTERNAL false)
  else inl "Manifest file is missing or unreadable.".

Definition prefs0 : ExtensionPrefs unit :=
  {| pref_state := ∅; pref_escalated := ∅; pref_blacklist := ∅;
     pref_installed := ∅; pref_uninstalled := [] |}.

Definition svc (en dis : list (@Extension nat)) (enabled : bool) : @Service nat unit :=
  {| extensions_ := en; disabled_extensions_ := dis; pending_extensions_ := ∅;
     unloaded_extension_paths_ := ∅; extension_prefs_ := prefs0;
     extensions_enabled_ := enabled; log_ := [] |}.

Definition with_pending (id : string) (p : @PendingExtensionInfo nat)
    (s : @Service nat unit) : @Service nat unit :=
  set_pending unit (<[id := p]> (pending_extensions_ unit s)) s.

Definition a1 := mk "aaaa" 1 "/ext/a1" INTERNAL false.
Definition a2 := mk "aaaa" 2 "/ext/a2" INTERNAL false.
Definition a_disk := mk "aaaa" 1 "/ext/a" INTERNAL false.
Definition b1 := mk "bbbb" 1 "/ext/b1" INTERNAL false.
Definition theme_request : @PendingExtensionInfo nat :=
  {| update_url := "http://example.com/update"; pending_version := 1;
     is_theme := true; install_silently := false |}.

Ltac solve_wf :=
  unfold wf, wf_list, registered, lowercase_id; simpl;
  split; [apply (bool_decide_unpack _); vm_compute; reflexivity | repeat constructor].

Ltac solve_dec := apply (bool_decide_unpack _); vm_compute; reflexivity.

(** ** Witnesses: each theorem applied where its hypotheses hold *)

(** C1: an enabled record [a1] upgraded by [a2] with extensions enabled. *)
Lemma OnExtensionLoaded_upgrade_witness :
  (load_gate unit (svc [a1] [] true) a2 = true →
   GetExtensionState unit (extension_prefs_ unit (svc [a1] [] true)) (ext_id a2) ≠ KILLBIT →
   ∃ s', OnExtensionLoaded cmp unit incr (svc [a1] [] true) a2 false = Some s' ∧
     unloaded_extension_paths_ unit s' !! ext_id a2 = Some (ext_path a1) ∧
     filter (fun x => ext_id x = ext_id a2) (registered unit s') = [a2] ∧
     (false || negb (incr a1 a2) = false →
        a2 ∈ disabled_extensions_ unit s' ∧
        GetExtensionState unit (extension_prefs_ unit s') (ext_id a2) = DISABLED ∧
        pref_escalated unit (extension_prefs_ unit s') !! ext_id a2 = Some true)) ∧
  (load_gate unit (svc [a1] [] true) a2 = false →
   ∃ s', OnExtensionLoaded cmp unit incr (svc [a1] [] true) a2 false = Some s' ∧
     registered unit s' = registered unit (svc [a1] [] true) ∧
     filter (fun x => ext_id x = ext_id a2) (registered unit s') = [a1]).
Proof.
  apply (OnExtensionLoaded_upgrade cmp parse unit incr valid init mval abs disk
           (svc [a1] [] true) a2 a1 false);
    [solve_wf | reflexivity | solve_dec | reflexivity | reflexivity].
Defined.

(** C4: the enabled record [a2] and a stale load of [a1]. *)
Lemma OnExtensionLoaded_stale_witness :
  ∃ s', OnExtensionLoaded cmp unit incr (svc [a2] [] true) a1 false = Some s' ∧
    extensions_ unit s' = extensions_ unit (svc [a2] [] true) ∧
    disabled_extensions_ unit s' = disabled_extensions_ unit (svc [a2] [] true) ∧
    extension_prefs_ unit s' = extension_prefs_ unit (svc [a2] [] true) ∧
    log_ unit s' = app (log_ unit (svc [a2] [] true))
      (if load_gate unit (svc [a2] [] true) a1
       then [LogWarning ("Duplicate extension load attempt: " ++ ext_id a1);
             Notify EXTENSION_OVERINSTALL_ERROR
               ("Duplicate extension load attempt: " ++ ext_id a1);
             ReportError ("Could not load extension from '" ++ ext_path a1 ++ "'. " ++
                          "Duplicate extension load attempt: " ++ ext_id a1) false]
       else []).
Proof.
  apply (OnExtensionLoaded_stale cmp unit incr (svc [a2] [] true) a1 a2 false);
    [solve_wf | reflexivity | solve_dec | reflexivity | vm_compute; discriminate].
Defined.

(** C10: a packed, non-theme record loaded while extensions are disabled. *)
Lemma OnExtensionLoaded_gate_closed_witness :
  OnExtensionLoaded cmp unit incr (svc [] [] false) a1 false =
    Some (set_unloaded unit (delete (ext_id a1)
            (unloaded_extension_paths_ unit (svc [] [] false))) (svc [] [] false)).
Proof.
  apply (OnExtensionLoaded_gate_closed cmp unit incr (svc [] [] false) a1 false);
    [reflexivity | reflexivity | discriminate | reflexivity].
Defined.

(** C3: a theme is pending for ["aaaa"] and a non-theme bundle arrives. *)
Lemma OnExtensionInstalled_theme_mismatch_witness :
  ∃ s', OnExtensionInstalled cmp unit incr mval
          (with_pending "aaaa" theme_request (svc [] [] true)) a1 true = Some s' ∧
    extensions_ unit s' = [] ∧ disabled_extensions_ unit s' = [] ∧
    extension_prefs_ unit s' = prefs0 ∧
    pending_extensions_ unit s' = <["aaaa" := theme_request]> ∅ ∧
    log_ unit s' = app [] [LogWarning ("Not installing pending extension " ++ ext_id a1);
                           PostFileTask (DeleteFileHelper (ext_path a1) true)].
Proof.
  apply (OnExtensionInstalled_theme_mismatch cmp unit incr mval
           (with_pending "aaaa" theme_request (svc [] [] true)) a1 theme_request true);
    [vm_compute; reflexivity | discriminate].
Defined.

(** C5: an update for ["zzzz"], neither pending nor installed. *)
Lemma UpdateExtension_unknown_witness :
  let s' := UpdateExtension unit (svc [a1] [] true) "zzzz" "/tmp/z.crx"
              "http://example.com/z.crx" in
  extensions_ unit s' = [a1] ∧ disabled_extensions_ unit s' = [] ∧
  pending_extensions_ unit s' = ∅ ∧
  log_ unit s' = app [] [LogWarning ("Will not update extension " ++ "zzzz" ++
                                     " because it is not installed or pending");
                         PostFileTask (DeleteFileHelper "/tmp/z.crx" false)].
Proof.
  apply (UpdateExtension_unknown unit (svc [a1] [] true) "zzzz" "/tmp/z.crx"
           "http://example.com/z.crx");
    [reflexivity | intros r Hr; apply list_elem_of_singleton in Hr as ->;
                   intros H; vm_compute in H; discriminate H].
Defined.

(** C6: [a2] (version 2) enabled, an external provider reports version 1. *)
Lemma OnExternalExtensionFound_versions_witness :
  (cmp (ext_version a2) 1 = Lt →
     OnExternalExtensionFound cmp parse unit (svc [a2] [] true) "aaaa" "1" "/ext/x.crx"
       EXTERNAL_PREF =
     Some (add_log unit [InstallCrx {| crx_path := "/ext/x.crx";
                                      crx_expected_id := Some "aaaa";
                                      crx_allow_privilege_increase := true;
                                      crx_silent := true; crx_delete_source := false;
                                      crx_install_source := Some EXTERNAL_PREF;
                                      crx_original_url := None;
                                      crx_force_web_origin_to_download_url := false |}]
                   (svc [a2] [] true))) ∧
  (cmp (ext_version a2) 1 = Eq →
     OnExternalExtensionFound cmp parse unit (svc [a2] [] true) "aaaa" "1" "/ext/x.crx"
       EXTERNAL_PREF = Some (svc [a2] [] true)) ∧
  (cmp (ext_version a2) 1 = Gt →
     ∃ msg, OnExternalExtensionFound cmp parse unit (svc [a2] [] true) "aaaa" "1"
              "/ext/x.crx" EXTERNAL_PREF =
            Some (add_log unit [LogWarning msg] (svc [a2] [] true))).
Proof.
  apply (OnExternalExtensionFound_versions cmp parse unit (svc [a2] [] true) "aaaa" "1"
           "/ext/x.crx" EXTERNAL_PREF a2 1);
    [solve_wf | solve_dec | reflexivity | reflexivity].
Defined.

(** C2: ["bbbb"] blacklisted while [a1] and [b1] are enabled. *)
Lemma UpdateExtensionBlacklist_spec_witness :
  ∃ s', UpdateExtensionBlacklist unit valid (svc [a1; b1] [] true) ["bbbb"] = Some s' ∧
    pref_blacklist unit (extension_prefs_ unit s') =
      list_to_set (filter (fun i => valid i = true) ["bbbb"]) ∧
    disabled_extensions_ unit s' = [] ∧
    (∀ x, x ∈ extensions_ unit s' ↔
          x ∈ [a1; b1] ∧
          ext_id x ∉ (list_to_set (filter (fun i => valid i = true) ["bbbb"])
                       : gset string)).
Proof.
  apply (UpdateExtensionBlacklist_spec parse unit incr valid init mval abs disk
           (svc [a1; b1] [] true) ["bbbb"]).
  solve_wf.
Defined.


(** C8: the enabled record [a_disk], whose bundle is on disk. *)
Lemma Unload_Reload_roundtrip_witness :
  ∃ s1, UnloadExtension unit (svc [a_disk] [] true) (ext_id a_disk) = Some s1 ∧
    filter (fun x => ext_id x = ext_id a_disk) (registered unit s1) = [] ∧
    unloaded_extension_paths_ unit s1 !! ext_id a_disk = Some (ext_path a_disk) ∧
    ReloadExtension cmp unit incr init mval s1 (ext_id a_disk) =
      Some (add_log unit [PostFileTask (LoadSingleExtension (ext_path a_disk))] s1) ∧
    (∀ e', disk (abs (ext_path a_disk)) = inr e' →
       ext_id e' = ext_id a_disk →
       (∀ p, pending_extensions_ unit (svc [a_disk] [] true) !! ext_id a_disk = Some p →
             is_theme p = ext_is_theme e') →
       GetExtensionState unit (extension_prefs_ unit (svc [a_disk] [] true)) (ext_id a_disk)
         ≠ KILLBIT →
       ∃ s3, RunUITask cmp unit incr mval
               (add_log unit [PostFileTask (LoadSingleExtension (ext_path a_disk))] s1)
               (Backend_LoadSingleExtension abs disk (ext_path a_disk)) = Some s3 ∧
             filter (fun x => ext_id x = ext_id a_disk) (registered unit s3) =
               [set_location LOAD e']).
Proof.
  apply (Unload_Reload_roundtrip cmp parse unit incr valid init mval abs disk
           (svc [a_disk] [] true) a_disk);
    [solve_wf | solve_dec | intros info H; discriminate H | discriminate].
Defined.

(** ** Counterexamples to the claims as stated *)

(** C1: with extensions disabled, the newer packed record [a2] is not
    registered and the version-1 record [a1] stays the only one. *)
Lemma OnExtensionLoaded_upgrade_gate_closed_cex :
  match OnExtensionLoaded cmp unit incr (svc [a1] [] false) a2 false with
  | Some s' => registered unit s' = [a1] ∧ ext_version a1 = 1 ∧ ext_version a2 = 2
  | None => False
  end.
Proof. vm_compute. split; [reflexivity | split; reflexivity]. Defined.

(** C2: a blacklisted disabled record [b1] stays in the Disabled list. *)
Lemma UpdateExtensionBlacklist_disabled_cex :
  match UpdateExtensionBlacklist unit valid (svc [a1] [b1] true) ["bbbb"] with
  | Some s' => disabled_extensions_ unit s' = [b1] ∧
               bool_decide (ext_id b1 ∈ pref_blacklist unit (extension_prefs_ unit s')) = true
  | None => False
  end.
Proof. vm_compute. split; reflexivity. Defined.

(** C4: with extensions disabled, the stale load of [a1] emits nothing. *)
Lemma OnExtensionLoaded_stale_silent_cex :
  match OnExtensionLoaded cmp unit incr (svc [a2] [] false) a1 false with
  | Some s' => registered unit s' = [a2] ∧ log_ unit s' = []
  | None => False
  end.
Proof. vm_compute. split; reflexivity. Defined.

(** C8: the packed record [a_disk] comes back as an unpacked ([LOAD]) one. *)
Lemma Unload_Reload_location_cex :
  match (s1 ← UnloadExtension unit (svc [a_disk] [] true) "aaaa";
         s2 ← ReloadExtension cmp unit incr init mval s1 "aaaa";
         RunUITask cmp unit incr mval s2 (Backend_LoadSingleExtension abs disk "/ext/a"))
  with
  | Some s3 => registered unit s3 = [set_location LOAD a_disk] ∧
               ext_location a_disk = INTERNAL
  | None => False
  end.
Proof. vm_compute. split; reflexivity. Defined.

(** C9: disabling an unknown identifier leaves no diagnostic in the log. *)
Lemma DisableExtension_silent_cex :
  log_ unit (DisableExtension (version := nat) unit (svc [] [] true) "aaaa") = [].
Proof. reflexivity. Defined.

End Demo.

(** * Instances of the further properties *)

Module DemoExtra.
Import Demo.

(** A manifest parses unless it is empty; the loader that always succeeds
    builds a lowercase record at the given root. *)
Definition deser (m : string) : option unit := if String.eqb m "" then None else Some tt.
Definition init_ok (p : string) (_ : unit) (_ : bool) : string + @Extension nat :=
  inr (mk "cccc" 1 p INTERNAL false).
(** A loader that builds a theme at "/theme" and a plain record elsewhere. *)
Definition init_mixed (p : string) (_ : unit) (_ : bool) : string + @Extension nat :=
  if String.eqb p "/theme" then inr (mk "tttt" 1 p INTERNAL true)
  else inr (mk "cccc" 1 p INTERNAL false).
Definition reloc (_ : @ExtensionInfo unit) : bool := false.
Definition comp (m root : string) : ComponentExtensionInfo :=
  {| component_manifest := m; component_root_directory := root |}.
Definition no_versions (_ : string) : option nat := None.
Definition e_ext := mk "eeee" 1 "/ext/e" EXTERNAL_PREF false.
Definition plain_request : @PendingExtensionInfo nat :=
  {| update_url := "http://example.com/update"; pending_version := 1;
     is_theme := false; install_silently := true |}.

(** The lookup is case-insensitive: "AAAA" finds the record [a1]. *)
Lemma GetExtensionByIdInternal_spec_witness :
  GetExtensionByIdInternal unit (svc [a1] [b1] true) "AAAA" true true = Some a1 ↔
    a1 ∈ registered unit (svc [a1] [b1] true) ∧ ext_id a1 = StringToLowerASCII "AAAA".
Proof.
  apply (GetExtensionByIdInternal_spec parse unit incr valid init mval abs disk
           (svc [a1] [b1] true) "AAAA" a1).
  solve_wf.
Defined.


Lemma DisableExtension_moves_witness :
  let s' := DisableExtension unit (svc [a1] [] true) (ext_id a1) in
  disabled_extensions_ unit s' = app (disabled_extensions_ unit (svc [a1] [] true)) [a1] ∧
  (∀ x, x ∈ extensions_ unit s' ↔
        x ∈ extensions_ unit (svc [a1] [] true) ∧ ext_id x ≠ ext_id a1) ∧
  GetExtensionState unit (extension_prefs_ unit s') (ext_id a1) = DISABLED ∧
  log_ unit s' = app (log_ unit (svc [a1] [] true))
                   [UnregisterChromeURLOverrides (ext_id a1);
                    Notify EXTENSION_UNLOADED (ext_id a1)].
Proof.
  apply (DisableExtension_moves unit (svc [a1] [] true) a1); [solve_wf | solve_dec].
Defined.


(** The disabled record [b1] is unloaded with [EXTENSION_UNLOADED_DISABLED]. *)
Lemma UnloadExtension_notifies_witness :
  ∃ s', UnloadExtension unit (svc [a1] [b1] true) (ext_id b1) = Some s' ∧
    unloaded_extension_paths_ unit s' !! ext_id b1 = Some (ext_path b1) ∧
    (∀ x, x ∈ registered unit s' ↔
          x ∈ registered unit (svc [a1] [b1] true) ∧ ext_id x ≠ ext_id b1) ∧
    log_ unit s' = app (log_ unit (svc [a1] [b1] true))
      [UnregisterChromeURLOverrides (ext_id b1);
       Notify (if bool_decide (b1 ∈ disabled_extensions_ unit (svc [a1] [b1] true))
               then EXTENSION_UNLOADED_DISABLED else EXTENSION_UNLOADED) (ext_id b1)].
Proof.
  apply (UnloadExtension_notifies parse unit incr valid init mval abs disk
           (svc [a1] [b1] true) b1); [solve_wf | solve_dec].
Defined.

Lemma Unload_Uninstall_unknown_witness :
  UnloadExtension unit (svc [a1] [] true) "zzzz" = None ∧
  UninstallExtension unit (svc [a1] [] true) "zzzz" true = None.
Proof.
  apply (Unload_Uninstall_unknown unit (svc [a1] [] true) "zzzz" true).
  apply Forall_forall. solve_dec.
Defined.


Lemma UninstallExtension_registered_witness :
  ∃ s', UninstallExtension unit (svc [a1] [] true) (ext_id a1) false = Some s' ∧
    (∀ x, x ∈ registered unit s' ↔
          x ∈ registered unit (svc [a1] [] true) ∧ ext_id x ≠ ext_id a1) ∧
    GetInstalledExtensionInfo unit (extension_prefs_ unit s') (ext_id a1) = None ∧
    pref_uninstalled unit (extension_prefs_ unit s') =
      app (pref_uninstalled unit (extension_prefs_ unit (svc [a1] [] true)))
          [(ext_id a1, ext_location a1, false)] ∧
    log_ unit s' = app (log_ unit (svc [a1] [] true))
      (app [UnregisterChromeURLOverrides (ext_id a1);
            Notify (if bool_decide (a1 ∈ disabled_extensions_ unit (svc [a1] [] true))
                    then EXTENSION_UNLOADED_DISABLED else EXTENSION_UNLOADED) (ext_id a1)]
        (app (if bool_decide (ext_location a1 = LOAD) then []
              else [PostFileTask (UninstallExtensionFiles (ext_id a1))])
             [ClearExtensionData (ext_id a1)])).
Proof.
  apply (UninstallExtension_registered parse unit incr valid init mval abs disk
           (svc [a1] [] true) a1 false); [solve_wf | solve_dec].
Defined.

(** A pending entry that agrees on the theme flag is consumed. *)
Lemma OnExtensionInstalled_success_witness :
  ∃ s', OnExtensionInstalled cmp unit incr mval
          (with_pending "aaaa" plain_request (svc [] [] true)) a1 false = Some s' ∧
    pending_extensions_ unit s' =
      delete (ext_id a1) (pending_extensions_ unit
                            (with_pending "aaaa" plain_request (svc [] [] true))) ∧
    GetInstalledExtensionInfo unit (extension_prefs_ unit s') (ext_id a1) =
      Some {| info_id := ext_id a1; info_path := ext_path a1;
              info_location := ext_location a1; info_manifest := Some (mval a1) |} ∧
    ∃ l, log_ unit s' =
      app (log_ unit (with_pending "aaaa" plain_request (svc [] [] true)))
        (Notify (if ext_is_theme a1 then THEME_INSTALLED else EXTENSION_INSTALLED) (ext_id a1)
         :: l).
Proof.
  apply (OnExtensionInstalled_success cmp parse unit incr valid init mval abs disk
           (with_pending "aaaa" plain_request (svc [] [] true)) a1 false).
  - solve_wf.
  - intros p Hp. vm_compute in Hp. injection Hp as <-. reflexivity.
Defined.


(** A disabled record that was never unloaded has no remembered path. *)
Lemma ReloadExtension_unknown_witness :
  ReloadExtension cmp unit incr init mval (svc [] [a1] true) "aaaa" = None.
Proof.
  apply (ReloadExtension_unknown cmp unit incr init mval (svc [] [a1] true) "aaaa").
  - apply Forall_forall. solve_dec.
  - reflexivity.
  - reflexivity.
Defined.

Lemma ReloadExtension_enabled_unpacked_witness :
  ∃ s1, UnloadExtension unit (svc [a1] [] true) (ext_id a1) = Some s1 ∧
    ReloadExtension cmp unit incr init mval (svc [a1] [] true) (ext_id a1) =
      Some (add_log unit [PostFileTask (LoadSingleExtension (ext_path a1))] s1).
Proof.
  apply (ReloadExtension_enabled_unpacked cmp parse unit incr valid init mval abs disk
           (svc [a1] [] true) a1);
    [solve_wf | solve_dec | intros info H; discriminate H | discriminate].
Defined.

(** The unparsable component is skipped, [comp "{}" "/c1"] fails to
    initialize, and [comp "{}" "/c2"] is never looked at. *)
Lemma LoadComponentExtensions_stops_witness :
  LoadComponentExtensions cmp unit incr init deser (svc [] [] true)
    (app [comp "" "/c0"] (comp "{}" "/c1" :: [comp "{}" "/c2"])) =
  LoadComponentExtensions cmp unit incr init deser (svc [] [] true)
    (app [comp "" "/c0"] [comp "{}" "/c1"]).
Proof.
  apply (LoadComponentExtensions_stops cmp unit incr init deser (svc [] [] true)
           [comp "" "/c0"] (comp "{}" "/c1") [comp "{}" "/c2"] tt "Manifest is invalid.");
    reflexivity.
Defined.

Lemma LoadComponentExtensions_registers_witness :
  ∃ s', LoadComponentExtensions cmp unit incr init_ok deser (svc [] [] true)
          [comp "{}" "/c1"] = Some s' ∧ wf unit s' ∧
    ∀ x, x ∈ registered unit s' → x ∈ registered unit (svc [] [] true) ∨
                                  ext_location x = COMPONENT.
Proof.
  apply (LoadComponentExtensions_registers cmp parse unit incr valid init_ok mval abs disk
           deser).
  - intros p m b e H. injection H as <-. reflexivity.
  - solve_wf.
Defined.

Lemma LoadComponentExtensions_extensions_disabled_witness :
  ∃ s', LoadComponentExtensions cmp unit incr init_mixed deser (svc [] [] false)
          [comp "{}" "/c1"; comp "{}" "/theme"] = Some s' ∧
    ∀ x, x ∈ registered unit s' →
      x ∈ registered unit (svc [] [] false) ∨
      (ext_location x = COMPONENT ∧ ext_is_theme x = true).
Proof.
  apply (LoadComponentExtensions_extensions_disabled cmp parse unit incr valid init_mixed mval
           abs disk deser).
  - intros p m b e H. unfold init_mixed in H.
    destruct (String.eqb p "/theme"); injection H as <-; reflexivity.
  - solve_wf.
  - reflexivity.
Defined.

Lemma LoadAllExtensions_registers_witness :
  ∃ s', LoadAllExtensions cmp unit incr init_ok mval disk deser reloc (svc [] [] true)
          [comp "{}" "/c1"]
          [{| info_id := "cccc"; info_path := "/ext/c"; info_location := EXTERNAL_PREF;
              info_manifest := Some tt |}] = Some s' ∧ wf unit s' ∧
    ∀ x, x ∈ registered unit s' →
      x ∈ registered unit (svc [] [] true) ∨ ext_location x = COMPONENT ∨
      ∃ i, i ∈ [{| info_id := "cccc"; info_path := "/ext/c"; info_location := EXTERNAL_PREF;
                   info_manifest := Some tt |}] ∧ ext_location x = info_location unit i.
Proof.
  apply (LoadAllExtensions_registers cmp parse unit incr valid init_ok mval abs disk
           deser reloc).
  - intros p m b e H. injection H as <-. reflexivity.
  - solve_wf.
Defined.

Lemma Backend_CheckExternalUninstall_run_witness :
  ∃ s', RunBackendEffects unit (svc [e_ext] [] true)
          (Backend_CheckExternalUninstall [(EXTERNAL_PREF, no_versions)] (ext_id e_ext)
                                          (ext_location e_ext)) = Some s' ∧
    (∀ x, x ∈ registered unit s' ↔
          x ∈ registered unit (svc [e_ext] [] true) ∧ ext_id x ≠ ext_id e_ext) ∧
    pref_uninstalled unit (extension_prefs_ unit s') =
      app (pref_uninstalled unit (extension_prefs_ unit (svc [e_ext] [] true)))
          [(ext_id e_ext, ext_location e_ext, true)].
Proof.
  apply (Backend_CheckExternalUninstall_run parse unit incr valid init mval abs disk
           (svc [e_ext] [] true) e_ext [(EXTERNAL_PREF, no_versions)] no_versions);
    [solve_wf | solve_dec | reflexivity | reflexivity].
Defined.

End DemoExtra.
